(** * MCSOLOL panel: console log store, live feed, port-conflict gate,
      WebSocket upgrade proxy and console event relay.

    A shallow embedding of the TypeScript sources of the panel:
    - [Console]   : the console page (log store, EventSource subscription);
    - [Dashboard] : the dashboard page (start/stop, port-conflict dialog);
    - [WsProxy]   : the WebSocket upgrade route;
    - [Relay]     : the console stream (server-sent events) route. *)

From Stdlib Require Import List String Ascii Bool Arith NArith Lia.
From Stdlib Require Import DecimalString.
Import ListNotations.
Open Scope string_scope.
Open Scope list_scope.

(* ================================================================== *)
(** * Console page *)
(* ================================================================== *)

Module Console.

(** ** Log entries and the store *)

Inductive LogType := info | warning | error | command.

Record LogEntry := mkLog {
  timestamp : string;
  type : LogType;
  content : string
}.

(** [log.timestamp === newLog.timestamp && log.content === newLog.content] *)
Definition sameIdentity (newLog log : LogEntry) : bool :=
  (timestamp log =? timestamp newLog) && (content log =? content newLog).

(** [newLogs.some(log => ...)] *)
Definition isDuplicate (newLogs : list LogEntry) (newLog : LogEntry) : bool :=
  existsb (sameIdentity newLog) newLogs.

(** Body of [data.logs.forEach]: the accumulator is the pair of the local
    variables [newLogs] and [updated]. *)
Definition pushEntry (acc : list LogEntry * bool) (entry : LogEntry)
  : list LogEntry * bool :=
  let newLog := mkLog (timestamp entry) (type entry) (content entry) in
  if isDuplicate (fst acc) newLog
  then acc
  else (fst acc ++ [newLog], true).

(** [data.logs.forEach(...)] started from [newLogs = [...prev]],
    [updated = false]. *)
Definition mergeBatch (prev batch : list LogEntry) : list LogEntry * bool :=
  fold_left pushEntry batch (prev, false).

(** [l.slice(-n)]: the last [n] elements (all of them when there are fewer). *)
Definition slice_last {A} (n : nat) (l : list A) : list A :=
  skipn (List.length l - n) l.

(** [l[l.length - 1]] *)
Definition lastElement {A} (l : list A) : option A :=
  nth_error l (List.length l - 1).

Definition capacity : nat := 1000.

(** The updater passed to [setLogs] in [eventSource.onmessage].  It returns
    the next value of the [logs] state and the value assigned to the closure
    variable [lastTimestamp] ([None]: no assignment). *)
Definition mergeUpdater (batch prev : list LogEntry)
  : list LogEntry * option string :=
  let (newLogs, updated) := mergeBatch prev batch in
  if updated then
    let trimmedLogs := slice_last capacity newLogs in
    match lastElement trimmedLogs with
    | Some l => (trimmedLogs, Some (timestamp l))
    | None => (prev, None) (* reading [.timestamp] of [undefined] throws *)
    end
  else (prev, None).

(** ** handleServerAction of the console page *)

Inductive Action := start | stop | restart | force_stop.

Definition actionName (a : Action) : string :=
  match a with
  | start => "start" | stop => "stop"
  | restart => "restart" | force_stop => "force-stop"
  end.

Definition commandMessages (a : Action) : string :=
  match a with
  | start => "Starting server..."
  | stop => "Stopping server..."
  | restart => "Restarting server..."
  | force_stop => "Force stopping server..."
  end.

(** What the control request came to. *)
Inductive ControlOutcome :=
| FetchRejected (message : string)     (* [fetch] or [response.json()] threw *)
| ResponseNotOk                        (* [!response.ok] *)
| Succeeded                            (* [data.success] *)
| Refused (message : option string).   (* [!data.success], [data.message] *)

(** [new Date().toISOString()] is read twice: [now1] before the request,
    [now2] after it. *)
Definition handleServerAction (action : Action) (now1 now2 : string)
    (outcome : ControlOutcome) (logs : list LogEntry) : list LogEntry :=
  let logs1 := logs ++ [mkLog now1 command (commandMessages action)] in
  let failed (m : string) :=
    logs1 ++ [mkLog now2 error
                ("Failed to " ++ actionName action ++ " server: " ++ m)%string] in
  match outcome with
  | FetchRejected m => failed m
  | ResponseNotOk => failed "Failed to control server"
  | Succeeded =>
      logs1 ++ [mkLog now2 info
                  ("Server " ++ actionName action
                   ++ " command sent successfully")%string]
  | Refused (Some m) => failed (if m =? "" then "Failed to control server" else m)
  | Refused None => failed "Failed to control server"
  end.

(** ** The subscription effect ([useEffect] keyed on [serverId]) *)

(** An [EventSource] object: the [since] parameter of the URL it was
    constructed with, and whether [close()] has been called on it. *)
Record EventSource := mkSource {
  since : option string;
  closed : bool
}.

Definition close (es : EventSource) : EventSource :=
  mkSource (since es) true.

(** The closure variables of the effect ([isComponentMounted], [eventSource],
    [lastTimestamp]), the [logs] state of the component, and what the effect
    has asked of the browser: the pending [setTimeout(connectEventSource, _)]
    calls by their delay in milliseconds, and the [since] parameter of every
    [EventSource] constructed so far. *)
Record Effect := mkEffect {
  isComponentMounted : bool;
  eventSource : option EventSource;
  lastTimestamp : option string;
  logs : list LogEntry;
  timers : list nat;
  opened : list (option string)
}.

(** State when the effect starts. *)
Definition mounted : Effect :=
  mkEffect true None None [] [] [].

(** [if (lastTimestamp) streamUrl.searchParams.set('since', lastTimestamp)]:
    [null], [undefined] and the empty string are falsy. *)
Definition sinceParam (lastTimestamp : option string) : option string :=
  match lastTimestamp with
  | Some t => if t =? "" then None else Some t
  | None => None
  end.

Definition reconnectDelay : nat := 5000.

(** [connectEventSource].  [throws] tells whether building the URL or the
    [EventSource] raises, which sends control to the [catch] block. *)
Definition connectEventSource (throws : bool) (st : Effect) : Effect :=
  if negb (isComponentMounted st) then st
  else
    let es := option_map close (eventSource st) in
    if throws then
      mkEffect (isComponentMounted st) es (lastTimestamp st) (logs st)
               (timers st ++ [reconnectDelay]) (opened st)
    else
      let url := sinceParam (lastTimestamp st) in
      mkEffect (isComponentMounted st) (Some (mkSource url false))
               (lastTimestamp st) (logs st) (timers st) (opened st ++ [url]).

(** [event.data] of a pushed message, seen through [JSON.parse] and
    [data.logs]. *)
Inductive MessageData :=
| Unparsable                                   (* [JSON.parse] throws *)
| Parsed (data_logs : option (list LogEntry)). (* [None]: [data.logs] falsy *)

(** [eventSource.onmessage] *)
Definition onmessage (d : MessageData) (st : Effect) : Effect :=
  if negb (isComponentMounted st) then st
  else
    match d with
    | Parsed (Some (e :: batch)) =>
        let (logs', assigned) := mergeUpdater (e :: batch) (logs st) in
        mkEffect (isComponentMounted st) (eventSource st)
                 (match assigned with
                  | Some t => Some t
                  | None => lastTimestamp st
                  end)
                 logs' (timers st) (opened st)
    | _ => st
    end.

(** [eventSource.onerror] *)
Definition onerror (st : Effect) : Effect :=
  if negb (isComponentMounted st) then st
  else
    match eventSource st with
    | Some es =>
        mkEffect (isComponentMounted st) (Some (close es)) (lastTimestamp st)
                 (logs st) (timers st ++ [reconnectDelay]) (opened st)
    | None => st
    end.

(** The function returned by the effect. *)
Definition cleanup (st : Effect) : Effect :=
  mkEffect false (option_map close (eventSource st)) (lastTimestamp st)
           (logs st) (timers st) (opened st).

(** Result of the backlog request of [fetchInitialLogs]. *)
Inductive Backlog :=
| BacklogFailed
| BacklogData (data_logs : option (list LogEntry))
              (data_lastTimestamp : option string).

Definition fetchInitialLogs (b : Backlog) (st : Effect) : Effect :=
  match b with
  | BacklogData (Some l) ts =>
      if isComponentMounted st then
        mkEffect (isComponentMounted st) (eventSource st) ts l
                 (timers st) (opened st)
      else st
  | _ => st
  end.

(** [fetchInitialLogs().then(() => { if (isComponentMounted) connectEventSource() })] *)
Definition initialSetup (b : Backlog) (throws : bool) (st : Effect) : Effect :=
  let st1 := fetchInitialLogs b st in
  if isComponentMounted st1 then connectEventSource throws st1 else st1.

Definition setLogs (f : list LogEntry -> list LogEntry) (st : Effect) : Effect :=
  mkEffect (isComponentMounted st) (eventSource st) (lastTimestamp st)
           (f (logs st)) (timers st) (opened st).

(** What can happen to a subscription. *)
Inductive Event :=
| InitialLogsFetched (b : Backlog) (throws : bool)
| StreamMessage (d : MessageData)
| StreamError
| ReconnectTimer (throws : bool)   (* a pending timeout fires *)
| Teardown                         (* React runs the cleanup *)
| ServerAction (a : Action) (now1 now2 : string) (o : ControlOutcome)
| ClearLogs.                       (* the Clear button: [setLogs([])] *)

(** The code run for each event. *)
Definition handle (ev : Event) (st : Effect) : Effect :=
  match ev with
  | InitialLogsFetched b throws => initialSetup b throws st
  | StreamMessage d => onmessage d st
  | StreamError => onerror st
  | ReconnectTimer throws =>
      connectEventSource throws
        (mkEffect (isComponentMounted st) (eventSource st) (lastTimestamp st)
                  (logs st) (tl (timers st)) (opened st))
  | Teardown => cleanup st
  | ServerAction a now1 now2 o => setLogs (handleServerAction a now1 now2 o) st
  | ClearLogs => setLogs (fun _ => []) st
  end.

Definition run (evs : list Event) (st : Effect) : Effect :=
  fold_left (fun s ev => handle ev s) evs st.

(** The browser delivers [message] and [error] events only to an
    [EventSource] that has not been closed, and runs a timeout callback only
    when one is pending. *)
Definition isOpen (st : Effect) : bool :=
  match eventSource st with
  | Some es => negb (closed es)
  | None => false
  end.

Definition canFire (ev : Event) (st : Effect) : bool :=
  match ev with
  | StreamMessage _ | StreamError => isOpen st
  | ReconnectTimer _ => negb (Nat.eqb (List.length (timers st)) 0)
  | _ => true
  end.

Inductive reachable : Effect -> Prop :=
| reach_mounted : reachable mounted
| reach_step st ev :
    reachable st -> canFire ev st = true -> reachable (handle ev st).

(** Only a mounted subscription has an open feed. *)
Definition guarded (st : Effect) : Prop :=
  isOpen st = true -> isComponentMounted st = true.

(** ** Values used in the scenarios *)

(** The identity of an entry for deduplication. *)
Definition identity (e : LogEntry) : string * string :=
  (timestamp e, content e).

(** The subscription once the backlog request has failed and the feed has
    been opened: empty store, no cursor. *)
Definition live : Effect :=
  run [InitialLogsFetched BacklogFailed false] mounted.

(** Entry number [n] of a long console output. *)
Definition numbered (n : nat) : LogEntry :=
  mkLog (NilZero.string_of_uint (Nat.to_uint n)) info "line".

(** A pushed batch of one thousand distinct entries. *)
Definition thousand : list LogEntry := map numbered (seq 1 1000).

(** Scenario A: [a@1] is pushed, then [a@1, b@2]. *)
Definition a_at_1 : LogEntry := mkLog "1" info "a".
Definition b_at_2 : LogEntry := mkLog "2" info "b".

Definition scenarioA : Effect :=
  run [StreamMessage (Parsed (Some [a_at_1]));
       StreamMessage (Parsed (Some [a_at_1; b_at_2]))] live.

(** Scenario C: three messages arrive on the live feed, then it fails. *)
Definition c_at_3 : LogEntry := mkLog "3" warning "c".

Definition scenarioC : Effect :=
  run [StreamMessage (Parsed (Some [a_at_1]));
       StreamMessage (Parsed (Some [b_at_2]));
       StreamMessage (Parsed (Some [c_at_3]))] live.

End Console.

(* ================================================================== *)
(** * Dashboard page *)
(* ================================================================== *)

Module Dashboard.

Inductive Status := running | stopped | starting | stopping.

Definition Status_eqb (a b : Status) : bool :=
  match a, b with
  | running, running | stopped, stopped
  | starting, starting | stopping, stopping => true
  | _, _ => false
  end.

Record ServerListItem := mkServer {
  id : string;
  name : string;
  motd : string;
  status : Status;
  players_online : nat;
  players_max : nat;
  version : string;
  port : string
}.

(** The [portConflict] state. *)
Record PortConflict := mkConflict {
  isOpen : bool;
  conflictingServer : option ServerListItem;
  currentServer : option ServerListItem
}.

Inductive Action := start | stop.

Definition actionName (a : Action) : string :=
  match a with start => "start" | stop => "stop" end.

(** ** The network, as the page sees it *)

Inductive Request :=
| POST_control (serverId : string) (action : Action)
    (* POST /api/server/${id}/control   { action } *)
| GET_servers
    (* GET  /api/server *)
| POST_properties (serverId : string) (server_port : string).
    (* POST /api/server/${id}/properties   { 'server-port': newPort } *)

(** The fields of a JSON body that the page reads. *)
Record Body := mkBody {
  body_servers : option (list ServerListItem);   (* [data.servers] *)
  body_error : option string                     (* [error.error] *)
}.

Record Response := mkResponse {
  ok : bool;
  body : option Body        (* [None]: [response.json()] rejects *)
}.

Inductive FetchResult :=
| Rejected (message : string)   (* [fetch] rejects *)
| Resolved (r : Response).

(** The backend and the transport are outside the page: a network answers
    each request knowing every request made so far (the last element of the
    list is the request being answered). *)
Definition Network := list Request -> FetchResult.

(** ** Handlers as computations *)

(** What a handler changes: the requests made, the values queued with
    [setServers] and [setPortConflict] for the next render, and the lines
    written with [console.error]. *)
Record World := mkWorld {
  requests : list Request;
  next_servers : list ServerListItem;
  next_portConflict : PortConflict;
  console : list string
}.

Inductive Completion (A : Type) :=
| Returned (a : A)
| Thrown (message : string).
Arguments Returned {A} a.
Arguments Thrown {A} message.

Definition M (A : Type) : Type := World -> Completion A * World.

Definition ret {A} (a : A) : M A := fun w => (Returned a, w).

Definition bind {A B} (m : M A) (k : A -> M B) : M B :=
  fun w =>
    match m w with
    | (Returned a, w') => k a w'
    | (Thrown e, w') => (Thrown e, w')
    end.

Definition throw {A} (message : string) : M A := fun w => (Thrown message, w).

(** [try { m } catch (error) { h error }] *)
Definition try_catch {A} (m : M A) (h : string -> M A) : M A :=
  fun w =>
    match m w with
    | (Returned a, w') => (Returned a, w')
    | (Thrown e, w') => h e w'
    end.

Notation "x <- m ;; k" := (bind m (fun x => k))
  (at level 61, m at next level, right associativity).
Notation "m ;;; k" := (bind m (fun _ => k))
  (at level 61, right associativity).

Definition fetch (net : Network) (req : Request) : M Response :=
  fun w =>
    let w' := mkWorld (requests w ++ [req]) (next_servers w)
                      (next_portConflict w) (console w) in
    match net (requests w') with
    | Rejected e => (Thrown e, w')
    | Resolved r => (Returned r, w')
    end.

(** [await response.json()] *)
Definition json (r : Response) : M Body :=
  match body r with
  | Some b => ret b
  | None => throw "Unexpected end of JSON input"
  end.

Definition setServers (l : list ServerListItem) : M unit :=
  fun w => (Returned tt,
            mkWorld (requests w) l (next_portConflict w) (console w)).

Definition setPortConflict (c : PortConflict) : M unit :=
  fun w => (Returned tt,
            mkWorld (requests w) (next_servers w) c (console w)).

Definition console_error (line : string) : M unit :=
  fun w => (Returned tt,
            mkWorld (requests w) (next_servers w) (next_portConflict w)
                    (console w ++ [line])).

(** [a || b] on an optional string: the empty string is falsy too. *)
Definition orElse (a : option string) (b : string) : string :=
  match a with
  | Some s => if s =? "" then b else s
  | None => b
  end.

(** [data.servers || []] *)
Definition serversOrEmpty (b : Body) : list ServerListItem :=
  match body_servers b with Some l => l | None => [] end.

(** The predicate given to [servers.find] in [handleServerAction]:
    [s.status === "running" && s.port === server.port && s.id !== server.id]. *)
Definition conflictsWith (server s : ServerListItem) : bool :=
  Status_eqb (status s) running
  && (port s =? port server)
  && negb (id s =? id server).

(** A render of [DashboardPage]: the values of the state variables that the
    handlers created in that render close over. *)
Record Render := mkRender {
  servers : list ServerListItem;
  portConflict : PortConflict
}.

(** [handleServerAction(server, action)] of the render [r]. *)
Definition handleServerAction (net : Network) (r : Render)
    (server : ServerListItem) (action : Action) : M unit :=
  let runningServer :=
    match action with
    | start => find (conflictsWith server) (servers r)
    | stop => None
    end in
  match runningServer with
  | Some runningServer =>
      setPortConflict (mkConflict true (Some runningServer) (Some server))
  | None =>
      try_catch
        (response <- fetch net (POST_control (id server) action) ;;
         (if ok response then ret tt
          else
            error <- json response ;;
            throw (orElse (body_error error)
                     ("Failed to " ++ actionName action ++ " server")%string)) ;;;
         updatedResponse <- fetch net GET_servers ;;
         data <- json updatedResponse ;;
         setServers (serversOrEmpty data))
        (fun e => console_error
                    ("Failed to " ++ actionName action ++ " server: " ++ e)%string)
  end.

(** [handleChangePort(newPort)] of the render [r].  The call of
    [handleServerAction] at its end is the one of the same render. *)
Definition handleChangePort (net : Network) (r : Render) (newPort : string)
  : M unit :=
  match currentServer (portConflict r) with
  | None => ret tt
  | Some current =>
      try_catch
        (response <- fetch net (POST_properties (id current) newPort) ;;
         (if ok response then ret tt
          else
            error <- json response ;;
            throw (orElse (body_error error) "Failed to update server port")) ;;;
         updatedResponse <- fetch net GET_servers ;;
         data <- json updatedResponse ;;
         setServers (serversOrEmpty data) ;;;
         handleServerAction net r current start)
        (fun e => console_error ("Failed to change port: " ++ e)%string)
  end.

(** ** The port-conflict dialog *)

(** State of [PortConflictDialog]. *)
Record Dialog := mkDialog {
  newPort : string;
  isSubmitting : bool
}.

(** The [min] and [max] attributes of the number input. *)
Definition input_min : N := 1024.
Definition input_max : N := 65535.

(** [disabled={isSubmitting || !newPort || newPort === currentServer.port}] *)
Definition changePortDisabled (d : Dialog) (current : ServerListItem) : bool :=
  isSubmitting d || (newPort d =? "") || (newPort d =? port current).

(** [onClose]: [() => setPortConflict({ isOpen: false })] *)
Definition onClose : M unit :=
  setPortConflict (mkConflict false None None).

(** The dialog's own [handleChangePort]; [setIsSubmitting] is local to the
    dialog and is left out of [World]. *)
Definition dialogHandleChangePort (net : Network) (r : Render) (d : Dialog)
  : M unit :=
  try_catch
    (handleChangePort net r (newPort d) ;;; onClose)
    (fun e => console_error ("Failed to change port: " ++ e)%string).

(** The dialog's [handleStopServer]; [onStopServer] is
    [() => handleServerAction(portConflict.conflictingServer!, "stop")].
    Without a conflicting server, reading [server.id] throws inside the [try]
    of [handleServerAction], whose [catch] logs it; [onClose] runs all the
    same. *)
Definition dialogHandleStopServer (net : Network) (r : Render) : M unit :=
  try_catch
    (match conflictingServer (portConflict r) with
     | None =>
         console_error
           "Failed to stop server: Cannot read properties of undefined (reading 'id')"
     | Some conflicting => handleServerAction net r conflicting stop
     end ;;; onClose)
    (fun e => console_error ("Failed to stop server: " ++ e)%string).

(** A click on "Change Port".  The dialog renders nothing unless both servers
    are defined, and a disabled button does not run its handler. *)
Definition clickChangePort (net : Network) (r : Render) (d : Dialog) : M unit :=
  match conflictingServer (portConflict r), currentServer (portConflict r) with
  | Some _, Some current =>
      if changePortDisabled d current then ret tt
      else dialogHandleChangePort net r d
  | _, _ => ret tt
  end.

(** The world a handler of render [r] starts in. *)
Definition worldOf (r : Render) : World :=
  mkWorld [] (servers r) (portConflict r) [].

(** The next render, once the handler has finished. *)
Definition nextRender (w : World) : Render :=
  mkRender (next_servers w) (next_portConflict w).

(** The range the specification asks of a proposed port. *)
Fixpoint decimal (s : string) (acc : N) : option N :=
  match s with
  | EmptyString => Some acc
  | String c s' =>
      let n := N_of_ascii c in
      if ((48 <=? n) && (n <=? 57))%N then decimal s' (10 * acc + (n - 48))%N
      else None
  end.

Definition portInRange (p : string) : bool :=
  match p with
  | EmptyString => false
  | _ => match decimal p 0%N with
         | Some n => ((input_min <=? n) && (n <=? input_max))%N
         | None => false
         end
  end.

(** ** Values used in the scenarios *)

(** Scenario B: X runs on port 25565, Y is stopped and has the same port. *)
Definition serverX : ServerListItem :=
  mkServer "x" "X" "A Minecraft Server" running 0 20 "1.21" "25565".
Definition serverY : ServerListItem :=
  mkServer "y" "Y" "A Minecraft Server" stopped 0 20 "1.21" "25565".

Definition noConflict : PortConflict := mkConflict false None None.

(** The render in which the user presses Start on Y. *)
Definition renderB : Render := mkRender [serverX; serverY] noConflict.

(** The render in which the dialog is shown. *)
Definition renderDialog : Render :=
  mkRender [serverX; serverY]
           (mkConflict true (Some serverX) (Some serverY)).

(** Y as the backend lists it once its port has been changed. *)
Definition serverY' (p : string) : ServerListItem :=
  mkServer "y" "Y" "A Minecraft Server" stopped 0 20 "1.21" p.

(** A backend that accepts every request and lists Y with the port last
    posted for it. *)
Fixpoint postedPort (trace : list Request) (p : string) : string :=
  match trace with
  | [] => p
  | POST_properties i q :: trace' =>
      postedPort trace' (if i =? "y" then q else p)
  | _ :: trace' => postedPort trace' p
  end.

Definition obligingBackend : Network :=
  fun trace =>
    Resolved (mkResponse true
      (Some (mkBody (Some [serverX; serverY' (postedPort trace "25565")])
                    None))).

(** Two stopped servers on one port; A has been asked to start and the
    backend lists it as starting. *)
Definition serverA (s : Status) : ServerListItem :=
  mkServer "a" "A" "A Minecraft Server" s 0 20 "1.21" "25565".
Definition serverB : ServerListItem :=
  mkServer "b" "B" "A Minecraft Server" stopped 0 20 "1.21" "25565".

End Dashboard.

(* ================================================================== *)
(** * Strings as JavaScript uses them in the two routes *)
(* ================================================================== *)

Module JsString.

(** [toLowerCase] on a string of Latin-1 code units (header names and values
    are byte strings): A-Z and the accented capitals move by 32. *)
Definition lowerChar (c : ascii) : ascii :=
  let n := nat_of_ascii c in
  if ((65 <=? n) && (n <=? 90)
      || (192 <=? n) && (n <=? 222) && negb (n =? 215))%nat
  then ascii_of_nat (n + 32)
  else c.

Fixpoint toLowerCase (s : string) : string :=
  match s with
  | EmptyString => EmptyString
  | String c s' => String (lowerChar c) (toLowerCase s')
  end.

(** [s.split(sep)] for a one-character separator; [cur] is the piece being
    read. *)
Fixpoint splitChar (sep : ascii) (s cur : string) : list string :=
  match s with
  | EmptyString => [cur]
  | String c s' =>
      if Ascii.eqb c sep then cur :: splitChar sep s' ""
      else splitChar sep s' (cur ++ String c "")%string
  end.

Definition LF : ascii := "010"%char.

(** [s.split('\n\n')] *)
Fixpoint splitBlankLine (s cur : string) : list string :=
  match s with
  | EmptyString => [cur]
  | String c s' =>
      match s' with
      | String c' s'' =>
          if Ascii.eqb c LF && Ascii.eqb c' LF
          then cur :: splitBlankLine s'' ""
          else splitBlankLine s' (cur ++ String c "")%string
      | EmptyString => [(cur ++ String c "")%string]
      end
  end.

(** [Boolean(s)] for a string. *)
Definition truthy (s : string) : bool := negb (s =? "").

(** [s.slice(n)] for [n] at most the length. *)
Fixpoint slice (n : nat) (s : string) : string :=
  match n, s with
  | S n', String _ s' => slice n' s'
  | _, _ => s
  end.

Definition startsWith (p s : string) : bool := String.prefix p s.

End JsString.

(* ================================================================== *)
(** * WebSocket upgrade route *)
(* ================================================================== *)

Module WsProxy.
Import JsString.

(** A [Headers] object, as its list of name/value pairs. *)
Definition Headers := list (string * string).

Definition named (name : string) (h : string * string) : bool :=
  toLowerCase (fst h) =? toLowerCase name.

(** [headers.get(name)]: names compare without case, several values are
    joined with a comma and a space, [None] is [null]. *)
Definition headers_get (hs : Headers) (name : string) : option string :=
  match filter (named name) hs with
  | [] => None
  | vs => Some (String.concat ", " (map snd vs))
  end.

(** [headers.set(name, value)] *)
Fixpoint headers_set (hs : Headers) (name value : string) : Headers :=
  match hs with
  | [] => [(toLowerCase name, value)]
  | h :: hs' =>
      if named name h
      then (fst h, value) :: filter (fun h' => negb (named name h')) hs'
      else h :: headers_set hs' name value
  end.

Record Request := mkRequest {
  headers : Headers;
  pathname : string          (* [new URL(request.url).pathname] *)
}.

Record NextResponse := mkNextResponse {
  response_body : option string;
  response_status : nat;
  response_headers : Headers
}.

(** The handshake request sent to the backend. *)
Record UpstreamRequest := mkUpstreamRequest {
  wsUrl : string;
  upstream_headers : Headers
}.

Record UpstreamResponse := mkUpstreamResponse {
  upstream_status : nat;
  upstream_response_headers : Headers
}.

(** The backend: [None] when [fetch] rejects. *)
Definition Upstream := UpstreamRequest -> option UpstreamResponse.

(** [a ?? b] *)
Definition nullish (a : option string) (b : string) : string :=
  match a with Some s => s | None => b end.

(** [pathSegments[pathSegments.length - 1] === 'console' ? 'console' : 'status'] *)
Definition messageType (pathname : string) : string :=
  let pathSegments := filter truthy (splitChar "/"%char pathname "") in
  match nth_error pathSegments (List.length pathSegments - 1) with
  | Some seg => if seg =? "console" then "console" else "status"
  | None => "status"
  end.

(** [new NextResponse(body, { status, headers })] inside the [try] of the
    route.  The constructor of [Response] takes a status from 200 to 599 and
    throws a [RangeError] for any other; the [catch] block then answers 500. *)
Definition caught : NextResponse :=
  mkNextResponse (Some "Failed to connect to WebSocket server") 500 [].

Definition newNextResponse (body : option string) (status : nat)
    (headers : Headers) : NextResponse :=
  if ((200 <=? status) && (status <=? 599))%nat
  then mkNextResponse body status headers
  else caught.

(** The route handler: the response, and the handshake requests it made. *)
Definition GET (upstream : Upstream) (request : Request) (serverId : string)
  : NextResponse * list UpstreamRequest :=
  let upgradeHeader := headers_get (headers request) "upgrade" in
  let notUpgrade :=
    match upgradeHeader with
    | None => true
    | Some v => negb (truthy v) || negb (toLowerCase v =? "websocket")
    end in
  if notUpgrade then
    (newNextResponse (Some "Expected Upgrade: websocket") 426 [], [])
  else
    let wsUrl :=
      ("ws://localhost:8765/" ++ serverId ++ "/"
         ++ messageType (pathname request))%string in
    let handshake :=
      mkUpstreamRequest wsUrl
        [("Upgrade", "websocket");
         ("Connection", "Upgrade");
         ("Sec-WebSocket-Key",
          nullish (headers_get (headers request) "sec-websocket-key") "");
         ("Sec-WebSocket-Version",
          nullish (headers_get (headers request) "sec-websocket-version") "13");
         ("Sec-WebSocket-Protocol",
          nullish (headers_get (headers request) "sec-websocket-protocol") "")] in
    match upstream handshake with
    | None => (caught, [handshake])
    | Some response =>
        if negb (upstream_status response =? 101)%nat then
          (newNextResponse (Some "Failed to upgrade connection") 502 [],
           [handshake])
        else
          let upgradeHeaders :=
            headers_set
              (headers_set (upstream_response_headers response)
                           "connection" "upgrade")
              "upgrade" "websocket" in
          (newNextResponse None 101 upgradeHeaders, [handshake])
    end.

(** ** Values used in the scenarios *)

(** Scenario D: a plain GET of the console socket. *)
Definition plainRequest : Request :=
  mkRequest [("Accept", "*/*")] "/api/server/survival/ws/console".

Definition upgradeRequest : Request :=
  mkRequest [("Connection", "Upgrade"); ("Upgrade", "WebSocket");
             ("Sec-WebSocket-Key", "dGhlIHNhbXBsZSBub25jZQ==")]
            "/api/server/survival/ws/console".

(** A backend that answers every handshake with 404. *)
Definition notFound : Upstream :=
  fun _ => Some (mkUpstreamResponse 404 []).

(** A backend that accepts every handshake. *)
Definition switching : Upstream :=
  fun _ => Some (mkUpstreamResponse 101
                   [("upgrade", "websocket"); ("connection", "Upgrade")]).

End WsProxy.

(* ================================================================== *)
(** * Console stream route (event relay) *)
(* ================================================================== *)

Module Relay.
Import JsString.

Section WithJSON.

(** [JSON.parse] and [JSON.stringify] belong to the runtime: the route is
    read for any type of parsed values, any parser ([None] when it throws)
    and any printer. *)
Variable JSON : Type.
Variable JSON_parse : string -> option JSON.
Variable JSON_stringify : JSON -> string.

Inductive ChannelState :=
| Readable
| Errored (message : string)
| Closed.

(** The [ReadableStream] controller of the route: the values enqueued so
    far, the state of the stream handed to the client, and the lines written
    with [console.error]. *)
Record Controller := mkController {
  queue : list JSON;
  channel : ChannelState;
  console : list string
}.

Definition opening : Controller := mkController [] Readable [].

Definition console_error (line : string) (c : Controller) : Controller :=
  mkController (queue c) (channel c) (console c ++ [line]).

(** [text.split('\n\n').filter(Boolean)] *)
Definition events (text : string) : list string :=
  filter truthy (splitBlankLine text "").

(** Body of [for (const event of events)]. *)
Definition forwardEvent (c : Controller) (event : string) : Controller :=
  if startsWith "data: " event then
    let data := slice 6 event in
    match JSON_parse data with
    | Some parsed =>
        match channel c with
        | Readable => mkController (queue c ++ [parsed]) Readable (console c)
        | _ => console_error "Failed to parse SSE data:" c
                 (* [enqueue] throws inside the same [try] *)
        end
    | None => console_error "Failed to parse SSE data:" c
    end
  else c.

(** Body of the [while] loop once a chunk has been read and decoded. *)
Definition forwardChunk (c : Controller) (text : string) : Controller :=
  fold_left forwardEvent (events text) c.

(** What [reader.read()] gives. *)
Inductive Read :=
| Value (text : string)
| Done
| ReadRejected (message : string).

Inductive LoopExit :=
| Waiting              (* suspended in [await reader.read()] *)
| Finished             (* [done]: [break] *)
| Failed (message : string).

Fixpoint readLoop (reads : list Read) (c : Controller) : Controller * LoopExit :=
  match reads with
  | [] => (c, Waiting)
  | Value text :: rest => readLoop rest (forwardChunk c text)
  | Done :: _ => (c, Finished)
  | ReadRejected m :: _ => (c, Failed m)
  end.

(** What the request to the backend gives. *)
Inductive Connect :=
| ConnectRejected (message : string)
| NotOk (status : string)
| NoBody
| Streaming (reads : list Read).

(** [controller.error(e)] *)
Definition controller_error (m : string) (c : Controller) : Controller :=
  match channel c with
  | Readable => mkController (queue c) (Errored m) (console c)
  | _ => c
  end.

(** [controller.close()]; on a stream that is not readable it throws and the
    state stays. *)
Definition controller_close (c : Controller) : Controller :=
  match channel c with
  | Readable => mkController (queue c) Closed (console c)
  | _ => c
  end.

Definition failWith (m : string) (c : Controller) : Controller :=
  controller_close
    (controller_error m (console_error ("SSE stream error: " ++ m)%string c)).

(** [start(controller)] of the [ReadableStream]. *)
Definition start (backend : Connect) : Controller :=
  match backend with
  | ConnectRejected m => failWith m opening
  | NotOk status =>
      failWith ("Backend responded with " ++ status)%string opening
  | NoBody => failWith "No response body" opening
  | Streaming reads =>
      match readLoop reads opening with
      | (c, Waiting) => c
      | (c, Finished) => controller_close c
      | (c, Failed m) => failWith m c
      end
  end.

(** [transform(chunk, controller)] of the [TransformStream]: the frame sent
    to the client for an enqueued value. *)
Definition transform (chunk : JSON) : string :=
  ("data: " ++ JSON_stringify chunk ++ String LF (String LF ""))%string.

(** The frames that [transform] makes of the values enqueued, in order: what
    the client is sent as long as the channel is not put in error (an error
    makes the stream drop whatever the pipe has not taken yet). *)
Definition clientFrames (c : Controller) : list string :=
  map transform (queue c).

(** The frames the relay finds in a chunk, and the payload of a frame. *)
Definition frames (text : string) : list string :=
  filter (startsWith "data: ") (events text).

Definition payload (frame : string) : string := slice 6 frame.

(** The parsed payloads of the frames of a chunk that parse, in order. *)
Fixpoint wellFormed (fs : list string) : list JSON :=
  match fs with
  | [] => []
  | f :: fs' =>
      match JSON_parse (payload f) with
      | Some v => v :: wellFormed fs'
      | None => wellFormed fs'
      end
  end.

(** The frames of a chunk that do not parse. *)
Definition malformed (fs : list string) : list string :=
  filter (fun f => match JSON_parse (payload f) with
                   | Some _ => false
                   | None => true
                   end) fs.

End WithJSON.

Arguments queue {JSON} c.
Arguments channel {JSON} c.
Arguments console {JSON} c.

(** ** A small instance for the scenarios: payloads that are decimal
    numerals *)

Fixpoint digits (s : string) : bool :=
  match s with
  | EmptyString => true
  | String c s' =>
      ((48 <=? nat_of_ascii c) && (nat_of_ascii c <=? 57))%nat && digits s'
  end.

Definition parseNumeral (s : string) : option string :=
  match s with
  | EmptyString => None
  | String "0" (String _ _) => None
  | _ => if digits s then Some s else None
  end.

Definition printNumeral (v : string) : string := v.

Definition blank : string := String LF (String LF "").

(** ** Frames as the backend writes them *)

(** A frame of the backend: the marker, the payload on one line, a blank
    line. *)
Definition upstreamFrame (p : string) : string :=
  ("data: " ++ p ++ blank)%string.

(** No line feed in a payload. *)
Fixpoint oneLine (p : string) : bool :=
  match p with
  | EmptyString => true
  | String c p' => negb (Ascii.eqb c LF) && oneLine p'
  end.

End Relay.

(* ================================================================== *)
(** * JavaScript text as UTF-16 code units *)
(* ================================================================== *)

Module JsText.

(** Where the code looks inside a string that a user typed (a console
    command, a server name), the string is the list of its code units. *)
Definition Text := list N.

Definition ofString (s : string) : Text :=
  map N_of_ascii (list_ascii_of_string s).

(** White space and line terminators: what [\s] matches and what [trim]
    removes (tab to carriage return, space, U+00A0, U+1680, U+2000 to U+200A,
    U+2028, U+2029, U+202F, U+205F, U+3000, U+FEFF). *)
Definition isWhiteSpace (c : N) : bool :=
  (((9 <=? c) && (c <=? 13)) || (c =? 32) || (c =? 160) || (c =? 5760)
   || ((8192 <=? c) && (c <=? 8202)) || (c =? 8232) || (c =? 8233)
   || (c =? 8239) || (c =? 8287) || (c =? 12288) || (c =? 65279))%N.

Fixpoint dropWhile (p : N -> bool) (t : Text) : Text :=
  match t with
  | [] => []
  | c :: t' => if p c then dropWhile p t' else t
  end.

Definition dropWhileEnd (p : N -> bool) (t : Text) : Text :=
  rev (dropWhile p (rev t)).

(** [t.trim()] *)
Definition trim (t : Text) : Text :=
  dropWhileEnd isWhiteSpace (dropWhile isWhiteSpace t).

End JsText.

(* ================================================================== *)
(** * Console page: control buttons and the command form *)
(* ================================================================== *)

Module ConsoleControls.
Import JsText.

(** The [serverStatus] state of the console page. *)
Inductive ServerStatus := running | stopped | starting | stopping.

Definition statusIs (a b : ServerStatus) : bool :=
  match a, b with
  | running, running | stopped, stopped
  | starting, starting | stopping, stopping => true
  | _, _ => false
  end.

(** The [disabled] attribute of the four control buttons. *)
Definition disabled (a : Console.Action) (serverStatus : ServerStatus) : bool :=
  match a with
  | Console.start =>
      statusIs serverStatus starting || statusIs serverStatus running
  | Console.stop =>
      statusIs serverStatus stopping || statusIs serverStatus stopped
  | Console.restart => negb (statusIs serverStatus running)
  | Console.force_stop => statusIs serverStatus stopped
  end.

(** A click on a control button: a disabled button does not run
    [handleServerAction]. *)
Definition clickControl (a : Console.Action) (serverStatus : ServerStatus)
    (now1 now2 : string) (o : Console.ControlOutcome)
    (logs : list Console.LogEntry) : list Console.LogEntry :=
  if disabled a serverStatus then logs
  else Console.handleServerAction a now1 now2 o logs.

(** What the request of [handleCommand] came to. *)
Inductive SendOutcome :=
| SendRejected (message : string)   (* [fetch] or [response.json()] threw *)
| SendNotOk                         (* [!response.ok] *)
| SendSucceeded                     (* [data.success] *)
| SendRefused (error : option string).   (* [!data.success], [data.error] *)

(** What [handleCommand] did: the [command] posted (if any), the value of
    the [command] state afterwards, and the description of the error toast
    (if any). *)
Record Submission := mkSubmission {
  posted : option Text;
  command_after : Text;
  toast : option string
}.

(** [handleCommand] *)
Definition handleCommand (command : Text) (o : SendOutcome) : Submission :=
  match trim command with
  | [] => mkSubmission None command None
  | c :: t =>
      let failed (m : string) :=
        mkSubmission (Some (c :: t)) command (Some m) in
      match o with
      | SendRejected m => failed m
      | SendNotOk => failed "Failed to send command"
      | SendSucceeded => mkSubmission (Some (c :: t)) [] None
      | SendRefused (Some m) =>
          failed (if m =? "" then "Failed to send command" else m)
      | SendRefused None => failed "Failed to send command"
      end
  end.

(** The events that come from the network or from a timer, as opposed to
    the buttons of the page. *)
Definition fromNetwork (ev : Console.Event) : bool :=
  match ev with
  | Console.InitialLogsFetched _ _ | Console.StreamMessage _
  | Console.StreamError | Console.ReconnectTimer _ => true
  | _ => false
  end.

End ConsoleControls.

(* ================================================================== *)
(** * Dashboard page: loading the list *)
(* ================================================================== *)

Module DashboardLoad.
Import Dashboard.

(** The fields of the body of GET /api/server that [fetchServers] reads. *)
Record ListBody := mkListBody {
  success : bool;
  list_servers : option (list ServerListItem);
  list_error : option string
}.

Inductive ListResult :=
| ListRejected (message : string)
| ListAnswered (ok : bool) (body : option ListBody).

(** The [servers], [isLoading] and [error] states of the page. *)
Record Page := mkPage {
  servers : list ServerListItem;
  isLoading : bool;
  error : option string
}.

Definition initialPage : Page := mkPage [] true None.

(** [fetchServers] of the mount effect. *)
Definition fetchServers (r : ListResult) (p : Page) : Page :=
  let failed (m : string) := mkPage (servers p) false (Some m) in
  match r with
  | ListRejected m => failed m
  | ListAnswered _ None => failed "Unexpected end of JSON input"
  | ListAnswered false (Some errorData) =>
      failed (orElse (list_error errorData) "Failed to fetch servers")
  | ListAnswered true (Some data) =>
      if success data then
        mkPage (match list_servers data with Some l => l | None => [] end)
               false None
      else failed (orElse (list_error data) "Failed to fetch servers")
  end.

End DashboardLoad.

Module DashboardNet.
Import Dashboard.

(** A request that was rejected, or answered with a status that is not
    ok. *)
Definition notOk (r : FetchResult) : Prop :=
  match r with
  | Rejected _ => True
  | Resolved response => Dashboard.ok response = false
  end.

(** A backend that refuses every properties update and accepts the rest. *)
Definition readOnlyBackend : Network :=
  fun trace =>
    match last trace GET_servers with
    | POST_properties _ _ =>
        Resolved (mkResponse false
                    (Some (mkBody None (Some "server.properties is read-only"))))
    | _ => obligingBackend trace
    end.

(** A backend that is down. *)
Definition downBackend : Network := fun _ => Rejected "fetch failed".

End DashboardNet.

(* ================================================================== *)
(** * Forwarding routes *)
(* ================================================================== *)

Module Routes.

Section WithJSON.

(** Bodies are parsed and printed by the runtime: the routes are read for
    any type of parsed values.  [message] reads the [message] field of a
    body of the backend; for a body that is [null] the read throws, and
    [message] is then the text of that error, which reaches the [catch] block
    and the answer the same way as the text of the [Error] thrown for a
    message.  [readAction] reads the [action] field of a request body:
    [None] when the body is [null], which makes the destructuring throw, and
    otherwise whether the field is truthy. *)
Variable JSON : Type.
Variable message : JSON -> option string.
Variable readAction : JSON -> option bool.

Inductive Method := GET | POST | DELETE.

Record BackendRequest := mkBackendRequest {
  method : Method;
  url : string;
  sent : option JSON
}.

Record BackendResponse := mkBackendResponse {
  ok : bool;
  json : option JSON          (* [None]: [response.json()] rejects *)
}.

Inductive BackendResult :=
| Unreachable (message : string)    (* [fetch] rejects *)
| Answered (r : BackendResponse).

Definition Backend := BackendRequest -> BackendResult.

(** What [NextResponse.json] is given. *)
Inductive ResponseBody :=
| Result (result : JSON)
| Error (error : string).

Record RouteResponse := mkRouteResponse {
  status : nat;
  body : ResponseBody
}.

Definition PYTHON_BACKEND_URL : string := "http://localhost:5033".

Definition syntaxError : string := "Unexpected end of JSON input".

(** [a || b] *)
Definition orElse (a : option string) (b : string) : string :=
  match a with
  | Some s => if s =? "" then b else s
  | None => b
  end.

(** The end of every forwarding route: a response that is not ok is turned
    into an [Error] carrying its [message] (or [fallback]), which the [catch]
    block answers with status 500; an ok response is passed on. *)
Definition answer (fallback : string) (r : BackendResult) : RouteResponse :=
  match r with
  | Unreachable m => mkRouteResponse 500 (Error m)
  | Answered response =>
      match json response with
      | None => mkRouteResponse 500 (Error syntaxError)
      | Some parsed =>
          if ok response then mkRouteResponse 200 (Result parsed)
          else mkRouteResponse 500 (Error (orElse (message parsed) fallback))
      end
  end.

(** POST /api/server/[serverId]/properties.  [requestBody] is
    [await request.json()], [None] when it rejects. *)
Definition propertiesRoute (backend : Backend) (serverId : string)
    (requestBody : option JSON) : RouteResponse * list BackendRequest :=
  match requestBody with
  | None => (mkRouteResponse 500 (Error syntaxError), [])
  | Some body =>
      let req :=
        mkBackendRequest POST
          (PYTHON_BACKEND_URL ++ "/api/server/" ++ serverId ++ "/properties")%string
          (Some body) in
      (answer "Failed to update server properties" (backend req), [req])
  end.

(** POST /api/server/[serverId]/control *)
Definition controlRoute (backend : Backend) (serverId : string)
    (requestBody : option JSON) : RouteResponse * list BackendRequest :=
  match requestBody with
  | None => (mkRouteResponse 500 (Error syntaxError), [])
  | Some body =>
      let req :=
        mkBackendRequest POST
          (PYTHON_BACKEND_URL ++ "/api/server/" ++ serverId ++ "/control")%string
          (Some body) in
      (answer "Failed to control server" (backend req), [req])
  end.

(** POST /api/server/control, the route without a server id. *)
Definition legacyControlRoute (backend : Backend) (requestBody : option JSON)
  : RouteResponse * list BackendRequest :=
  match requestBody with
  | None => (mkRouteResponse 500 (Error syntaxError), [])
  | Some body =>
      match readAction body with
      | None =>
          (mkRouteResponse 500
             (Error "Cannot destructure property 'action' of 'body' as it is null."),
           [])
      | Some false =>
          (mkRouteResponse 400 (Error "Action is required"), [])
      | Some true =>
          let req :=
            mkBackendRequest POST
              (PYTHON_BACKEND_URL ++ "/api/server/control")%string
              (Some body) in
          (answer "Failed to control server" (backend req), [req])
      end
  end.

(** GET /api/server *)
Definition listRoute (backend : Backend) : RouteResponse * list BackendRequest :=
  let req :=
    mkBackendRequest GET (PYTHON_BACKEND_URL ++ "/api/server")%string None in
  (answer "Failed to list servers" (backend req), [req]).

(** GET of the player profile route; [username] is
    [searchParams.get('username')]. *)
Definition profileRoute (backend : Backend) (username : option string)
  : RouteResponse * list BackendRequest :=
  match username with
  | None => (mkRouteResponse 400 (Error "Username is required"), [])
  | Some u =>
      if u =? "" then (mkRouteResponse 400 (Error "Username is required"), [])
      else
        let req :=
          mkBackendRequest GET
            ("https://api.mojang.com/users/profiles/minecraft/" ++ u)%string
            None in
        (match backend req with
         | Unreachable _ =>
             mkRouteResponse 500 (Error "Failed to fetch player profile")
         | Answered response =>
             if ok response then
               match json response with
               | Some data => mkRouteResponse 200 (Result data)
               | None =>
                   mkRouteResponse 500 (Error "Failed to fetch player profile")
               end
             else mkRouteResponse 404 (Error "Player not found")
         end, [req])
  end.

End WithJSON.

End Routes.

(* ================================================================== *)
(** * Download route: folder names *)
(* ================================================================== *)

Module Download.
Import JsText.

Section WithLowerCase.

(** [toLowerCase] on arbitrary text belongs to the runtime. *)
Variable toLowerCase : Text -> Text.

Definition dash : N := 45.

Definition isDash (c : N) : bool := (c =? dash)%N.

(** The class of the second replacement: slash, backslash, colon, star,
    question mark, double quote, angle brackets and bar. *)
Definition isInvalid (c : N) : bool :=
  ((c =? 47) || (c =? 92) || (c =? 58) || (c =? 42) || (c =? 63)
   || (c =? 34) || (c =? 60) || (c =? 62) || (c =? 124))%N.

(** The class [[a-z0-9-]]. *)
Definition isAllowed (c : N) : bool :=
  (((97 <=? c) && (c <=? 122)) || ((48 <=? c) && (c <=? 57)) || (c =? dash))%N.

(** [t.replace(/p+/g, by)]: every maximal run of units in [p] becomes [by];
    [inRun] tells that the unit before was in [p]. *)
Fixpoint replaceRuns (p : N -> bool) (by_ : Text) (inRun : bool) (t : Text)
  : Text :=
  match t with
  | [] => []
  | c :: t' =>
      if p c then
        if inRun then replaceRuns p by_ true t'
        else by_ ++ replaceRuns p by_ true t'
      else c :: replaceRuns p by_ false t'
  end.

(** [t.replace(/^-+|-+$/g, '')] *)
Definition stripDashes (t : Text) : Text :=
  dropWhileEnd isDash (dropWhile isDash t).

(** [t.replace(/^$/, 'minecraft-server')] *)
Definition orDefault (t : Text) : Text :=
  match t with
  | [] => ofString "minecraft-server"
  | _ => t
  end.

(** [sanitizeFolderName] *)
Definition sanitizeFolderName (name : Text) : Text :=
  orDefault
    (stripDashes
       (filter isAllowed
          (replaceRuns isDash [dash] false
             (replaceRuns isInvalid [] false
                (replaceRuns isWhiteSpace [dash] false
                   (toLowerCase name)))))).

End WithLowerCase.

(** Lower case of text made of ASCII code units. *)
Definition asciiLowerCase (t : Text) : Text :=
  map (fun c => if ((65 <=? c) && (c <=? 90))%N then (c + 32)%N else c) t.

(** Text that is a folder name already: not empty, made of [[a-z0-9-]], no
    dash at either end, no two dashes in a row. *)
Definition firstIsDash (t : Text) : bool :=
  match t with
  | c :: _ => isDash c
  | [] => false
  end.

Definition lastIsDash (t : Text) : bool := firstIsDash (rev t).

Fixpoint noDoubleDash (t : Text) : bool :=
  match t with
  | c :: t' => negb (isDash c && firstIsDash t') && noDoubleDash t'
  | [] => true
  end.

Definition isFolderName (t : Text) : bool :=
  negb (Nat.eqb (List.length t) 0)
  && forallb isAllowed t
  && negb (firstIsDash t) && negb (lastIsDash t)
  && noDoubleDash t.

End Download.

(* ================================================================== *)
(** * An instance of the relay: payloads that are JSON booleans *)
(* ================================================================== *)

Module RelayBool.

Definition parseBool (s : string) : option bool :=
  if s =? "true" then Some true
  else if s =? "false" then Some false
  else None.

Definition printBool (b : bool) : string :=
  if b then "true" else "false".

End RelayBool.

(* ================================================================== *)
(** * An instance of the routes: bodies that are lists of fields *)
(* ================================================================== *)

Module RoutesFields.

(** A body is the list of its string fields. *)
Definition Fields := list (string * string).

Fixpoint field (name : string) (b : Fields) : option string :=
  match b with
  | [] => None
  | (n, v) :: b' => if n =? name then Some v else field name b'
  end.

Definition message (b : Fields) : option string := field "message" b.

Definition readAction (b : Fields) : option bool :=
  match field "action" b with
  | Some v => Some (negb (v =? ""))
  | None => Some false
  end.

(** A backend that refuses everything, with a message. *)
Definition refusing : Routes.Backend Fields :=
  fun _ =>
    Routes.Answered Fields
      (Routes.mkBackendResponse Fields false
         (Some [("message", "Server is not running")])).

End RoutesFields.

(* ================================================================== *)
(** * Facts about the console page *)
(* ================================================================== *)

Module ConsoleFacts.
Import Console.

(** ** The merge *)

Lemma sameIdentity_true newLog log :
  sameIdentity newLog log = true <->
  timestamp log = timestamp newLog /\ content log = content newLog.
Proof.
  unfold sameIdentity.
  rewrite andb_true_iff, !String.eqb_eq. tauto.
Qed.

Lemma isDuplicate_true newLogs newLog :
  isDuplicate newLogs newLog = true <->
  exists log, In log newLogs
              /\ timestamp log = timestamp newLog
              /\ content log = content newLog.
Proof.
  unfold isDuplicate. rewrite existsb_exists.
  split; intros [log [Hin H]]; exists log; split; auto;
    now apply sameIdentity_true.
Qed.

Lemma isDuplicate_identity newLogs newLog :
  isDuplicate newLogs newLog = true <->
  In (identity newLog) (map identity newLogs).
Proof.
  rewrite isDuplicate_true, in_map_iff. unfold identity.
  split.
  - intros [log [Hin [Ht Hc]]]. exists log. now rewrite Ht, Hc.
  - intros [log [Heq Hin]]. exists log. inversion Heq. auto.
Qed.

Lemma rebuilt_entry e : mkLog (timestamp e) (type e) (content e) = e.
Proof. now destruct e. Qed.

Lemma pushEntry_eq acc e :
  pushEntry acc e =
  if isDuplicate (fst acc) e then acc else (fst acc ++ [e], true).
Proof. unfold pushEntry. now rewrite rebuilt_entry. Qed.

Lemma mergeBatch_snoc prev pre e :
  mergeBatch prev (pre ++ [e]) = pushEntry (mergeBatch prev pre) e.
Proof. unfold mergeBatch. now rewrite fold_left_app. Qed.

(** The working store only grows, at its end. *)
Lemma mergeBatch_extends prev batch :
  exists added, fst (mergeBatch prev batch) = prev ++ added
                /\ incl added batch
                /\ (snd (mergeBatch prev batch) = false -> added = []).
Proof.
  induction batch as [|e pre IH] using rev_ind.
  - exists []. cbn. rewrite app_nil_r. repeat split; auto. apply incl_refl.
  - destruct IH as [added [Hfst [Hincl Hsnd]]].
    rewrite mergeBatch_snoc, pushEntry_eq.
    destruct (isDuplicate (fst (mergeBatch prev pre)) e).
    + exists added. repeat split; auto. now apply incl_appl.
    + exists (added ++ [e]). cbn. rewrite Hfst, app_assoc.
      repeat split; auto; try discriminate.
      apply incl_app; [now apply incl_appl | apply incl_appr, incl_refl].
Qed.

Lemma mergeBatch_all_known prev batch :
  (forall e, In e batch -> isDuplicate prev e = true) ->
  mergeBatch prev batch = (prev, false).
Proof.
  induction batch as [|e pre IH] using rev_ind; intro H.
  - reflexivity.
  - rewrite mergeBatch_snoc, IH, pushEntry_eq.
    + cbn [fst]. now rewrite H by (apply in_or_app; right; left; reflexivity).
    + intros e' He'. apply H, in_or_app. now left.
Qed.

(** When something was merged, the working store ends with an entry of the
    batch that the previous store did not know. *)
Lemma mergeBatch_updated prev batch :
  snd (mergeBatch prev batch) = true ->
  exists front l, fst (mergeBatch prev batch) = front ++ [l]
                  /\ In l batch /\ isDuplicate prev l = false.
Proof.
  induction batch as [|e pre IH] using rev_ind.
  - discriminate.
  - rewrite mergeBatch_snoc, pushEntry_eq.
    destruct (isDuplicate (fst (mergeBatch prev pre)) e) eqn:Hdup.
    + intro Hu. destruct (IH Hu) as [front [l [Hf [Hin Hnew]]]].
      exists front, l. repeat split; auto. apply in_or_app. now left.
    + intros _. cbn [fst].
      exists (fst (mergeBatch prev pre)), e. repeat split; auto.
      * apply in_or_app. right. now left.
      * destruct (mergeBatch_extends prev pre) as [added [Hfst _]].
        destruct (isDuplicate prev e) eqn:Hp; auto.
        rewrite <- Hdup. symmetry.
        apply isDuplicate_true. apply isDuplicate_true in Hp.
        destruct Hp as [log [Hin H]]. exists log. split; auto.
        rewrite Hfst. apply in_or_app. now left.
Qed.

Lemma mergeBatch_distinct prev batch :
  NoDup (map identity prev) ->
  NoDup (map identity (fst (mergeBatch prev batch))).
Proof.
  intro Hprev.
  induction batch as [|e pre IH] using rev_ind.
  - exact Hprev.
  - rewrite mergeBatch_snoc, pushEntry_eq.
    destruct (isDuplicate (fst (mergeBatch prev pre)) e) eqn:Hdup; auto.
    cbn [fst]. rewrite map_app. cbn [map].
    apply NoDup_app; auto.
    + repeat constructor. intros [].
    + intros x Hx [Heq|[]]. subst x.
      apply isDuplicate_identity in Hx. congruence.
Qed.

(** ** Trimming *)

Lemma slice_last_length {A} n (l : list A) :
  List.length (slice_last n l) = Nat.min n (List.length l).
Proof. unfold slice_last. rewrite length_skipn. lia. Qed.

Lemma slice_last_suffix {A} n (l : list A) :
  exists evicted, l = evicted ++ slice_last n l
                  /\ List.length evicted = List.length l - n.
Proof.
  exists (firstn (List.length l - n) l). unfold slice_last.
  rewrite firstn_skipn, length_firstn. split; auto. lia.
Qed.

Lemma slice_last_snoc {A} n (front : list A) l :
  slice_last (S n) (front ++ [l]) = slice_last n front ++ [l].
Proof.
  unfold slice_last. rewrite length_app. cbn [List.length].
  replace (List.length front + 1 - S n) with (List.length front - n) by lia.
  rewrite skipn_app.
  replace (List.length front - n - List.length front) with 0 by lia.
  reflexivity.
Qed.

Lemma lastElement_snoc {A} (front : list A) l :
  lastElement (front ++ [l]) = Some l.
Proof.
  unfold lastElement. rewrite length_app. cbn [List.length].
  replace (List.length front + 1 - 1) with (List.length front) by lia.
  rewrite nth_error_app2 by lia. now rewrite Nat.sub_diag.
Qed.

Lemma NoDup_slice_last {A} n (l : list A) : NoDup l -> NoDup (slice_last n l).
Proof.
  intro H. destruct (slice_last_suffix n l) as [evicted [Heq _]].
  rewrite Heq in H. now apply NoDup_app_remove_l in H.
Qed.

Lemma map_slice_last {A B} (f : A -> B) n (l : list A) :
  map f (slice_last n l) = slice_last n (map f l).
Proof. unfold slice_last. now rewrite skipn_map, length_map. Qed.

(** ** The updater as a whole *)

Lemma mergeUpdater_unchanged batch prev :
  snd (mergeBatch prev batch) = false ->
  mergeUpdater batch prev = (prev, None).
Proof.
  unfold mergeUpdater. destruct (mergeBatch prev batch) as [newLogs updated].
  cbn. now intros ->.
Qed.

Lemma mergeUpdater_updated batch prev :
  snd (mergeBatch prev batch) = true ->
  exists front l,
    fst (mergeBatch prev batch) = front ++ [l]
    /\ In l batch /\ isDuplicate prev l = false
    /\ mergeUpdater batch prev =
       (slice_last capacity (fst (mergeBatch prev batch)), Some (timestamp l))
    /\ lastElement (slice_last capacity (fst (mergeBatch prev batch))) = Some l.
Proof.
  intro Hu. destruct (mergeBatch_updated _ _ Hu) as [front [l [Hf [Hin Hnew]]]].
  exists front, l. repeat split; auto.
  - unfold mergeUpdater.
    rewrite (surjective_pairing (mergeBatch prev batch)), Hu, Hf.
    cbv zeta. unfold capacity.
    cbn [fst]. now rewrite slice_last_snoc, lastElement_snoc.
  - rewrite Hf. unfold capacity. now rewrite slice_last_snoc, lastElement_snoc.
Qed.

(** After a merge that added something the store holds the most recent
    entries, at most [capacity] of them; what is evicted is the oldest part. *)
Lemma merge_keeps_most_recent batch prev :
  snd (mergeBatch prev batch) = true ->
  let newLogs := fst (mergeBatch prev batch) in
  let stored := fst (mergeUpdater batch prev) in
  List.length stored = Nat.min capacity (List.length newLogs)
  /\ exists evicted, newLogs = evicted ++ stored.
Proof.
  intro Hu. destruct (mergeUpdater_updated _ _ Hu) as [f [l [_ [_ [_ [Heq _]]]]]].
  cbn zeta. rewrite Heq. cbn [fst]. split.
  - apply slice_last_length.
  - destruct (slice_last_suffix capacity (fst (mergeBatch prev batch)))
      as [ev [H _]]. now exists ev.
Qed.

Lemma mergeUpdater_distinct batch prev :
  NoDup (map identity prev) ->
  NoDup (map identity (fst (mergeUpdater batch prev))).
Proof.
  intro H. destruct (snd (mergeBatch prev batch)) eqn:Hu.
  - destruct (mergeUpdater_updated _ _ Hu) as [f [l [_ [_ [_ [Heq _]]]]]].
    rewrite Heq. cbn [fst]. rewrite map_slice_last.
    apply NoDup_slice_last. now apply mergeBatch_distinct.
  - now rewrite mergeUpdater_unchanged.
Qed.

(** ** The handlers *)

Lemma onmessage_logs e batch st :
  isComponentMounted st = true ->
  logs (onmessage (Parsed (Some (e :: batch))) st)
  = fst (mergeUpdater (e :: batch) (logs st)).
Proof.
  intro Hm. unfold onmessage. rewrite Hm. cbn [negb].
  now destruct (mergeUpdater (e :: batch) (logs st)).
Qed.

Lemma onmessage_cursor e batch st :
  isComponentMounted st = true ->
  lastTimestamp (onmessage (Parsed (Some (e :: batch))) st)
  = match snd (mergeUpdater (e :: batch) (logs st)) with
    | Some t => Some t
    | None => lastTimestamp st
    end.
Proof.
  intro Hm. unfold onmessage. rewrite Hm. cbn [negb].
  now destruct (mergeUpdater (e :: batch) (logs st)).
Qed.

Lemma handleServerAction_length a now1 now2 o l :
  List.length (handleServerAction a now1 now2 o l) = List.length l + 2.
Proof.
  unfold handleServerAction.
  destruct o as [m| | |[m|]]; rewrite !length_app; cbn; lia.
Qed.


Lemma handle_ServerAction_length a now1 now2 o st :
  List.length (logs (handle (ServerAction a now1 now2 o) st))
  = List.length (logs st) + 2.
Proof. cbn. apply handleServerAction_length. Qed.

(** ** Invariants of the subscription *)

Ltac by_cases st :=
  destruct st as [m es ts l tm op]; destruct m; cbn in *;
  try discriminate; auto.

(** Only a mounted subscription has an open feed. *)
Lemma guarded_connect throws st :
  guarded st -> guarded (connectEventSource throws st).
Proof.
  unfold guarded, connectEventSource.
  destruct (isComponentMounted st) eqn:Hm; cbn; rewrite ?Hm; auto.
  destruct throws; cbn; auto.
Qed.

Lemma guarded_fetchInitialLogs b st :
  guarded st -> guarded (fetchInitialLogs b st).
Proof.
  unfold guarded, fetchInitialLogs.
  destruct b as [|[l|] ts]; auto.
  destruct (isComponentMounted st) eqn:Hm; cbn; rewrite ?Hm; auto.
Qed.

Lemma guarded_onmessage d st : guarded st -> guarded (onmessage d st).
Proof.
  unfold guarded, onmessage.
  destruct (isComponentMounted st) eqn:Hm; cbn; rewrite ?Hm; auto.
  destruct d as [|[[|e batch]|]]; rewrite ?Hm; auto.
  destruct (mergeUpdater (e :: batch) (logs st)); cbn; auto.
Qed.

Lemma guarded_onerror st : guarded st -> guarded (onerror st).
Proof.
  unfold guarded, onerror.
  destruct (isComponentMounted st) eqn:Hm; cbn; rewrite ?Hm; auto.
  destruct (eventSource st); cbn; rewrite ?Hm; auto.
Qed.

Lemma guarded_cleanup st : guarded (cleanup st).
Proof.
  unfold guarded, cleanup, isOpen. cbn.
  destruct (eventSource st); cbn; discriminate.
Qed.

Lemma open_implies_mounted st :
  reachable st -> isOpen st = true -> isComponentMounted st = true.
Proof.
  change (reachable st -> guarded st).
  induction 1 as [|st ev Hr IH Hfire]; [intros _; reflexivity|].
  destruct ev as [b throws|d| |throws| |a n1 n2 o|]; cbn [handle].
  - unfold initialSetup.
    destruct (isComponentMounted (fetchInitialLogs b st)) eqn:Hm.
    + now apply guarded_connect, guarded_fetchInitialLogs.
    + now apply guarded_fetchInitialLogs.
  - now apply guarded_onmessage.
  - now apply guarded_onerror.
  - now apply guarded_connect.
  - apply guarded_cleanup.
  - exact IH.
  - exact IH.
Qed.

(** Once unmounted, no handler opens a feed or mounts again. *)
Lemma handle_unmounted ev st :
  isComponentMounted st = false ->
  isComponentMounted (handle ev st) = false
  /\ opened (handle ev st) = opened st
  /\ (isOpen st = false -> isOpen (handle ev st) = false).
Proof.
  intro Hm.
  destruct ev as [b throws|d| |throws| |a n1 n2 o|]; cbn [handle];
    try (by_cases st; fail).
  - unfold initialSetup, fetchInitialLogs.
    destruct b as [|[l|] ts]; rewrite ?Hm; cbn; rewrite ?Hm; auto.
  - unfold cleanup, isOpen. cbn. repeat split.
    now destruct (eventSource st).
Qed.

Lemma cleanup_closes st :
  isComponentMounted (cleanup st) = false
  /\ opened (cleanup st) = opened st
  /\ isOpen (cleanup st) = false.
Proof.
  unfold cleanup, isOpen. cbn. repeat split.
  now destruct (eventSource st).
Qed.

Lemma run_unmounted evs st :
  isComponentMounted st = false -> isOpen st = false ->
  isComponentMounted (run evs st) = false
  /\ opened (run evs st) = opened st
  /\ isOpen (run evs st) = false.
Proof.
  revert st. induction evs as [|ev evs IH]; intros st Hm Ho; [now cbn|].
  change (run (ev :: evs) st) with (run evs (handle ev st)).
  destruct (handle_unmounted ev st Hm) as [Hm' [Hop Ho']].
  destruct (IH (handle ev st) Hm' (Ho' Ho)) as [H1 [H2 H3]].
  repeat split; congruence.
Qed.


(** ** The claims about the store *)



(** C4. The store is not kept within 1000 entries by every append: once the
    feed has filled it with 1000 entries, pressing Start appends the command
    line and the result line with no eviction, leaving 1002 entries. *)
Theorem server_action_overflows_store now1 now2 o :
  let st := handle (StreamMessage (Parsed (Some thousand))) live in
  reachable st
  /\ List.length (logs st) = capacity
  /\ List.length (logs (handle (ServerAction start now1 now2 o) st))
     = capacity + 2.
Proof.
  cbv zeta.
  assert (Hfull : List.length
                    (logs (handle (StreamMessage (Parsed (Some thousand))) live))
                  = capacity) by (vm_compute; reflexivity).
  split; [|split].
  - apply reach_step; [|reflexivity].
    apply (reach_step mounted (InitialLogsFetched BacklogFailed false));
      [apply reach_mounted | reflexivity].
  - exact Hfull.
  - rewrite handle_ServerAction_length, Hfull. reflexivity.
Qed.

(** ** The claims about the subscription *)

Lemma scenarioC_reachable : reachable scenarioC.
Proof.
  unfold scenarioC, live, run. cbn [fold_left].
  repeat (apply reach_step; [|reflexivity]).
  apply reach_mounted.
Qed.

(** C5. When the live feed fails, [onerror] closes the channel and schedules
    [connectEventSource] after 5000 ms.  When that timer fires, a new feed is
    opened whose [since] parameter is the cursor [lastTimestamp], and the
    cursor is the timestamp of the last entry merged into the store.  The
    store is untouched by the failure and the reconnect, and what arrives on
    the new feed is merged into it with the same deduplication, so no
    identity appears twice. *)
Theorem error_schedules_resuming_reconnect st es :
  reachable st -> eventSource st = Some es -> closed es = false ->
  let failed := handle StreamError st in
  let resumed := handle (ReconnectTimer false) failed in
  (eventSource failed = Some (close es)
   /\ isOpen failed = false
   /\ timers failed = timers st ++ [5000])
  /\ (eventSource resumed = Some (mkSource (sinceParam (lastTimestamp st)) false)
      /\ opened resumed = opened st ++ [sinceParam (lastTimestamp st)])
  /\ (forall e batch,
        snd (mergeBatch (logs st) (e :: batch)) = true ->
        let merged := handle (StreamMessage (Parsed (Some (e :: batch)))) st in
        exists l, In l (e :: batch)
                  /\ isDuplicate (logs st) l = false
                  /\ lastElement (logs merged) = Some l
                  /\ lastTimestamp merged = Some (timestamp l))
  /\ (logs resumed = logs st
      /\ forall e batch,
           let next :=
             handle (StreamMessage (Parsed (Some (e :: batch)))) resumed in
           logs next = fst (mergeUpdater (e :: batch) (logs st))
           /\ (NoDup (map identity (logs st)) ->
               NoDup (map identity (logs next)))).
Proof.
  intros Hr Hes Hopen.
  assert (Hm : isComponentMounted st = true).
  { apply open_implies_mounted; auto. unfold isOpen. now rewrite Hes, Hopen. }
  cbv zeta. cbn [handle].
  assert (Hfailed : onerror st =
            mkEffect true (Some (close es)) (lastTimestamp st) (logs st)
                     (timers st ++ [reconnectDelay]) (opened st)).
  { unfold onerror. now rewrite Hm, Hes. }
  split; [|split; [|split]].
  - rewrite Hfailed. cbn. repeat split.
  - rewrite Hfailed. cbn. repeat split.
  - intros e batch Hu.
    destruct (mergeUpdater_updated _ _ Hu) as [f [l [_ [Hin [Hnew [Heq Hlast]]]]]].
    exists l. rewrite onmessage_logs, onmessage_cursor, Heq by exact Hm.
    repeat split; auto.
  - rewrite Hfailed. split; [reflexivity|]. intros e batch.
    rewrite onmessage_logs by reflexivity.
    split; [reflexivity|]. apply mergeUpdater_distinct.
Qed.

(** C5 in Scenario C: after three messages the feed fails; the reconnect
    asks for the entries since "3". *)
Lemma error_schedules_resuming_reconnect_witness :
  opened (handle (ReconnectTimer false) (handle StreamError scenarioC))
  = [None; Some "3"].
Proof.
  exact (proj2 (proj1 (proj2
           (error_schedules_resuming_reconnect scenarioC (mkSource None false)
              scenarioC_reachable eq_refl eq_refl)))).
Defined.

(** Scenario C continued: the new feed replays [c@3] and brings [d@4]; the
    store goes on from where it was and holds [c@3] once. *)
Example scenarioC_replay :
  logs (run [StreamError; ReconnectTimer false;
             StreamMessage (Parsed (Some [c_at_3; mkLog "4" info "d"]))]
            scenarioC)
  = [a_at_1; b_at_2; c_at_3; mkLog "4" info "d"].
Proof. vm_compute. reflexivity. Qed.

(** The timer may also fire before the teardown: the feed it opens is closed
    by the cleanup. *)
Example timer_then_teardown :
  isOpen (run [StreamError; ReconnectTimer false; Teardown] scenarioC) = false
  /\ opened (run [StreamError; Teardown; ReconnectTimer false] scenarioC)
     = [None].
Proof. split; vm_compute; reflexivity. Qed.

(** C6. Once the cleanup has run, whatever happens next (a reconnect timer
    scheduled earlier firing, late messages or errors, the backlog request
    completing) constructs no [EventSource] and leaves no feed open; this
    holds whatever happened before the cleanup, so for every order of the
    timer and the teardown. *)
Theorem no_reconnect_after_teardown before after st :
  let torn := handle Teardown (run before st) in
  let final := run after torn in
  isOpen torn = false
  /\ opened final = opened torn
  /\ isOpen final = false
  /\ isComponentMounted final = false.
Proof.
  cbv zeta. cbn [handle].
  destruct (cleanup_closes (run before st)) as [C1 [C2 C3]].
  destruct (run_unmounted after _ C1 C3) as [H1 [H2 H3]].
  repeat split; auto.
Qed.

End ConsoleFacts.

(* ================================================================== *)
(** * Facts about the dashboard page *)
(* ================================================================== *)

Module DashboardFacts.
Import Dashboard.

Lemma Status_eqb_eq a b : Status_eqb a b = true <-> a = b.
Proof. destruct a, b; cbn; split; congruence. Qed.

Lemma conflictsWith_true server s :
  conflictsWith server s = true <->
  status s = running /\ port s = port server /\ id s <> id server.
Proof.
  unfold conflictsWith.
  rewrite !andb_true_iff, negb_true_iff, Status_eqb_eq, String.eqb_eq,
    String.eqb_neq.
  tauto.
Qed.

Ltac run_handler :=
  unfold try_catch, bind, fetch, json, ret, throw, setServers,
    setPortConflict, console_error, onClose;
  cbn;
  repeat match goal with
         | |- context [match ?net ?trace with Rejected _ => _ | Resolved _ => _ end] =>
             destruct (net trace) as [?|?]; cbn
         | |- context [if ok ?r then _ else _] => destruct (ok r); cbn
         | |- context [match body ?r with Some _ => _ | None => _ end] =>
             destruct (body r); cbn
         end.

(** When the gate finds nothing, the control request is the first thing the
    handler does; the only other request it may make is the list refresh,
    and it does not touch the conflict state. *)
Lemma handleServerAction_issues net r server action w :
  match action with
  | start => find (conflictsWith server) (servers r) = None
  | stop => True
  end ->
  let w' := snd (handleServerAction net r server action w) in
  exists rest,
    requests w' = requests w ++ POST_control (id server) action :: rest
    /\ (rest = [] \/ rest = [GET_servers])
    /\ next_portConflict w' = next_portConflict w.
Proof.
  intro Hfind. unfold handleServerAction.
  replace (match action with
           | start => find (conflictsWith server) (servers r)
           | stop => None
           end) with (@None ServerListItem)
    by (destruct action; [now rewrite Hfind | reflexivity]).
  run_handler;
    rewrite <- ?app_assoc; cbn;
    eexists; (split; [reflexivity | split; [auto | reflexivity]]).
Qed.

(** When the gate finds a server, nothing is requested and the conflict
    state is opened on it. *)
Lemma handleServerAction_conflict net r server runningServer w :
  find (conflictsWith server) (servers r) = Some runningServer ->
  let w' := snd (handleServerAction net r server start w) in
  requests w' = requests w
  /\ next_servers w' = next_servers w
  /\ next_portConflict w' = mkConflict true (Some runningServer) (Some server).
Proof.
  intro Hfind. unfold handleServerAction. rewrite Hfind. cbn. auto.
Qed.

(** ** The claims about the gate *)

(** C1. A start request for S: when the known list holds another server
    (different id) that is running on S's port, no request is made and the
    conflict state is opened with such a server (the first in the list) as
    conflicting and S as current; when it holds none, the control request
    "start" for S is made. *)
Theorem start_is_gated_by_port_conflict net r S w :
  let w' := snd (handleServerAction net r S start w) in
  let clash T :=
    In T (servers r)
    /\ status T = running /\ port T = port S /\ id T <> id S in
  ((exists T, clash T) ->
   exists T, clash T
             /\ requests w' = requests w
             /\ next_portConflict w' = mkConflict true (Some T) (Some S))
  /\ ((forall T, ~ clash T) ->
      exists rest,
        requests w' = requests w ++ POST_control (id S) start :: rest).
Proof.
  cbv zeta. split.
  - intros [T [Hin Hclash]].
    destruct (find (conflictsWith S) (servers r)) as [T'|] eqn:Hfind.
    + destruct (find_some _ _ Hfind) as [Hin' Hc].
      apply conflictsWith_true in Hc.
      destruct (handleServerAction_conflict net r S T' w Hfind) as [H1 [_ H2]].
      exists T'. auto.
    + apply conflictsWith_true in Hclash.
      rewrite (find_none _ _ Hfind T Hin) in Hclash. discriminate.
  - intro Hnone.
    destruct (handleServerAction_issues net r S start w) as [rest [H _]].
    + destruct (find (conflictsWith S) (servers r)) as [T'|] eqn:Hfind; auto.
      destruct (find_some _ _ Hfind) as [Hin' Hc].
      apply conflictsWith_true in Hc. now destruct (Hnone T').
    + now exists rest.
Qed.

(** C1 in Scenario B: starting Y while X runs on the same port. *)
Lemma start_is_gated_by_port_conflict_witness :
  exists T,
    requests (snd (handleServerAction obligingBackend renderB serverY start
                     (worldOf renderB))) = []
    /\ next_portConflict
         (snd (handleServerAction obligingBackend renderB serverY start
                 (worldOf renderB)))
       = mkConflict true (Some T) (Some serverY).
Proof.
  destruct (proj1 (start_is_gated_by_port_conflict obligingBackend renderB
                     serverY (worldOf renderB)))
    as [T [_ [H1 H2]]].
  - exists serverX. repeat split; cbn; auto. discriminate.
  - exists T. auto.
Defined.

(** C10. The gate looks at running servers only: when every other server on
    S's port is starting, stopping or stopped, the start request for S is
    made and the conflict state is left alone. *)
Theorem only_running_servers_conflict net r S w :
  (forall T, In T (servers r) -> port T = port S -> id T <> id S ->
             status T = starting \/ status T = stopping \/ status T = stopped) ->
  let w' := snd (handleServerAction net r S start w) in
  exists rest,
    requests w' = requests w ++ POST_control (id S) start :: rest
    /\ next_portConflict w' = next_portConflict w.
Proof.
  intro H.
  destruct (handleServerAction_issues net r S start w) as [rest [H1 [_ H2]]].
  - destruct (find (conflictsWith S) (servers r)) as [T|] eqn:Hfind; auto.
    destruct (find_some _ _ Hfind) as [Hin Hc].
    apply conflictsWith_true in Hc. destruct Hc as [Hs [Hp Hi]].
    destruct (H T Hin Hp Hi) as [E|[E|E]]; congruence.
  - now exists rest.
Qed.

(** C10 at an input: A has been started and is listed as starting; B, on the
    same port, is started too. *)
Lemma only_running_servers_conflict_witness :
  let r := mkRender [serverA starting; serverB] noConflict in
  let w := mkWorld [POST_control "a" start; GET_servers]
                   [serverA starting; serverB] noConflict [] in
  exists rest,
    requests (snd (handleServerAction obligingBackend r serverB start w))
    = [POST_control "a" start; GET_servers] ++ POST_control "b" start :: rest
    /\ next_portConflict
         (snd (handleServerAction obligingBackend r serverB start w))
       = noConflict.
Proof.
  cbv zeta.
  apply (only_running_servers_conflict obligingBackend
           (mkRender [serverA starting; serverB] noConflict) serverB).
  intros T [<-|[<-|[]]] _ Hid.
  - now left.
  - now destruct Hid.
Defined.

(** ** The claims about the dialog *)

(** The dialog of Scenario B is the one the start request on Y opens. *)
Lemma renderDialog_from_start net :
  nextRender (snd (handleServerAction net renderB serverY start
                     (worldOf renderB)))
  = renderDialog.
Proof. reflexivity. Qed.

(** Whatever list the gate is run on, Y as the dialog holds it still has the
    old port, and X is found again. *)
Lemma stale_current_server_still_conflicts p :
  find (conflictsWith serverY) [serverX; serverY' p] = Some serverX.
Proof. reflexivity. Qed.

(** Whenever the dialog is open on a conflict that the list of its render
    shows, changing the port requests nothing but the properties update and
    the list refresh. *)
Lemma handleChangePort_requests net r S T p w :
  currentServer (portConflict r) = Some S ->
  In T (servers r) -> conflictsWith S T = true ->
  let w' := snd (handleChangePort net r p w) in
  exists rest,
    requests w' = requests w ++ POST_properties (id S) p :: rest
    /\ (rest = [] \/ rest = [GET_servers]).
Proof.
  intros Hcur Hin Hc. unfold handleChangePort, handleServerAction.
  rewrite Hcur.
  destruct (find (conflictsWith S) (servers r)) as [T'|] eqn:Hfind.
  - run_handler; rewrite <- ?app_assoc; cbn; eexists; split;
      try reflexivity; auto.
  - rewrite (find_none _ _ Hfind T Hin) in Hc. discriminate.
Qed.

(** C2. Scenario B, the user submits "25566": the properties update for Y is
    requested, but no start request for Y follows, whatever the backend
    answers; with a backend that accepts everything the requests are the
    properties update and the list refresh, and the dialog is closed. *)
Theorem change_port_does_not_start net :
  let submit n :=
    snd (clickChangePort n renderDialog (mkDialog "25566" false)
           (worldOf renderDialog)) in
  (exists rest, requests (submit net) = POST_properties "y" "25566" :: rest)
  /\ ~ In (POST_control "y" start) (requests (submit net))
  /\ requests (submit obligingBackend)
     = [POST_properties "y" "25566"; GET_servers]
  /\ next_servers (submit obligingBackend) = [serverX; serverY' "25566"]
  /\ next_portConflict (submit obligingBackend) = noConflict.
Proof.
  cbv zeta. split; [|split; [|split; [|split]]]; try reflexivity.
  - unfold clickChangePort, dialogHandleChangePort, handleChangePort. cbn.
    run_handler; eexists; reflexivity.
  - unfold clickChangePort, dialogHandleChangePort, handleChangePort. cbn.
    run_handler; intro H; cbn in H; intuition discriminate.
Qed.

(** C9. A port below 1024 typed in the dialog is not rejected: the
    properties update carrying it is requested. *)
Theorem out_of_range_port_is_posted net :
  let w := snd (clickChangePort net renderDialog (mkDialog "80" false)
                  (worldOf renderDialog)) in
  portInRange "80" = false
  /\ changePortDisabled (mkDialog "80" false) serverY = false
  /\ exists rest, requests w = POST_properties "y" "80" :: rest.
Proof.
  cbv zeta. split; [reflexivity | split; [reflexivity|]].
  unfold clickChangePort, dialogHandleChangePort, handleChangePort. cbn.
  run_handler; eexists; reflexivity.
Qed.

End DashboardFacts.

(* ================================================================== *)
(** * Facts about the WebSocket upgrade route *)
(* ================================================================== *)

Module WsProxyFacts.
Import JsString WsProxy.

Example messageType_console :
  messageType "/api/server/survival/ws/console" = "console".
Proof. reflexivity. Qed.

Example messageType_default :
  messageType "/api/server/survival/ws" = "status".
Proof. reflexivity. Qed.

Example headers_get_ignores_case :
  headers_get (headers upgradeRequest) "upgrade" = Some "WebSocket".
Proof. reflexivity. Qed.

Lemma websocket_is_truthy v : toLowerCase v = "websocket" -> truthy v = true.
Proof. destruct v; [discriminate | reflexivity]. Qed.

(** C7. A GET whose [Upgrade] header is missing, or is not "websocket" up to
    case, is answered 426 and no handshake request is made; when a handshake
    request is made and the backend answers it with a status other than 101,
    the answer is 502. *)
Theorem upgrade_is_checked_before_handshake upstream request serverId :
  let result := GET upstream request serverId in
  let upgrade := headers_get (headers request) "upgrade" in
  ((forall v, upgrade = Some v -> toLowerCase v <> "websocket") ->
   response_status (fst result) = 426 /\ snd result = [])
  /\ (forall handshake response,
        In handshake (snd result) ->
        upstream handshake = Some response ->
        upstream_status response <> 101 ->
        response_status (fst result) = 502).
Proof.
  cbv zeta. unfold GET.
  destruct (headers_get (headers request) "upgrade") as [v|] eqn:Hget.
  - destruct (toLowerCase v =? "websocket") eqn:Hv.
    + apply String.eqb_eq in Hv. rewrite (websocket_is_truthy v Hv). cbn [negb orb].
      split.
      * intro H. now destruct (H v eq_refl).
      * match goal with
        | |- context [upstream ?h] => set (hs := h)
        end.
        intros handshake response Hin Hup Hst.
        assert (handshake = hs) as ->.
        { destruct (upstream hs) as [resp|]; [destruct (negb _)|];
            cbn in Hin; intuition. }
        rewrite Hup. apply Nat.eqb_neq in Hst. rewrite Hst. reflexivity.
    + rewrite orb_true_r. cbn. split; [auto | intros ? ? []].
  - cbn. split; [auto | intros ? ? []].
Qed.

(** C7 in Scenario D, and with a backend that refuses the handshake. *)
Lemma upgrade_is_checked_before_handshake_witness :
  (response_status (fst (GET notFound plainRequest "survival")) = 426
   /\ snd (GET notFound plainRequest "survival") = [])
  /\ response_status (fst (GET notFound upgradeRequest "survival")) = 502.
Proof.
  split.
  - apply (proj1 (upgrade_is_checked_before_handshake notFound plainRequest
                    "survival")).
    intros v H. discriminate H.
  - apply (proj2 (upgrade_is_checked_before_handshake notFound upgradeRequest
                    "survival")
             _ (mkUpstreamResponse 404 []) (or_introl eq_refl) eq_refl).
    cbn. discriminate.
Defined.

End WsProxyFacts.

(* ================================================================== *)
(** * Facts about the console stream route *)
(* ================================================================== *)

Module RelayFacts.
Import JsString Relay.

Section WithJSON.

Variable JSON : Type.
Variable JSON_parse : string -> option JSON.
Variable JSON_stringify : JSON -> string.

Local Abbreviation forwardEvent := (forwardEvent JSON JSON_parse).
Local Abbreviation forwardChunk := (forwardChunk JSON JSON_parse).
Local Abbreviation readLoop := (readLoop JSON JSON_parse).
Local Abbreviation wellFormed := (wellFormed JSON JSON_parse).
Local Abbreviation malformed := (malformed JSON JSON_parse).

Lemma forwardEvents_readable evs (c : Controller JSON) :
  channel c = Readable ->
  let c' := fold_left forwardEvent evs c in
  channel c' = Readable
  /\ queue c' = queue c ++ wellFormed (filter (startsWith "data: ") evs).
Proof.
  revert c. induction evs as [|ev evs IH]; intros c Hc; cbn zeta.
  - cbn. now rewrite app_nil_r.
  - cbn [fold_left filter]. unfold Relay.forwardEvent at 2 4.
    destruct (startsWith "data: " ev).
    + cbn [Relay.wellFormed]. unfold payload.
      destruct (JSON_parse (slice 6 ev)) as [v|].
      * rewrite Hc.
        destruct (IH (mkController JSON (queue c ++ [v]) Readable (console c))
                     eq_refl) as [H1 H2].
        split; [exact H1|]. rewrite H2. cbn. now rewrite <- app_assoc.
      * destruct (IH (console_error JSON "Failed to parse SSE data:" c) Hc)
          as [H1 H2].
        split; [exact H1 | exact H2].
    + now apply IH.
Qed.

Lemma readLoop_values chunks (c : Controller JSON) :
  channel c = Readable ->
  let r := readLoop (map Value chunks) c in
  snd r = Waiting
  /\ channel (fst r) = Readable
  /\ queue (fst r)
     = queue c ++ flat_map (fun text => wellFormed (frames text)) chunks.
Proof.
  revert c. induction chunks as [|text chunks IH]; intros c Hc; cbn zeta.
  - cbn. now rewrite app_nil_r.
  - cbn [map Relay.readLoop flat_map].
    destruct (forwardEvents_readable (events text) c Hc) as [H1 H2].
    destruct (IH (forwardChunk c text) H1) as [I1 [I2 I3]].
    repeat split; auto.
    rewrite I3. unfold Relay.forwardChunk at 1. rewrite H2.
    unfold frames. now rewrite <- app_assoc.
Qed.

Lemma wellFormed_app fs1 fs2 :
  wellFormed (fs1 ++ fs2) = wellFormed fs1 ++ wellFormed fs2.
Proof.
  induction fs1 as [|f fs1 IH]; [reflexivity|].
  cbn [app Relay.wellFormed].
  destruct (JSON_parse (payload f)); cbn [app]; now rewrite IH.
Qed.

(** Every frame that does not parse is reported with [console.error], and
    nothing else is. *)
Lemma forwardEvents_console evs (c : Controller JSON) :
  channel c = Readable ->
  console (fold_left forwardEvent evs c)
  = console c ++ map (fun _ => "Failed to parse SSE data:")
                     (malformed (filter (startsWith "data: ") evs)).
Proof.
  revert c. induction evs as [|ev evs IH]; intros c Hc.
  - cbn. now rewrite app_nil_r.
  - cbn [fold_left filter]. unfold Relay.forwardEvent at 2.
    destruct (startsWith "data: " ev).
    + cbn [Relay.malformed filter]. unfold payload.
      destruct (JSON_parse (slice 6 ev)) as [v|].
      * rewrite Hc. now rewrite IH.
      * rewrite IH by exact Hc. cbn. now rewrite <- app_assoc.
    + now apply IH.
Qed.

Lemma readLoop_console chunks (c : Controller JSON) :
  channel c = Readable ->
  console (fst (readLoop (map Value chunks) c))
  = console c ++ map (fun _ => "Failed to parse SSE data:")
                     (flat_map (fun text => malformed (frames text)) chunks).
Proof.
  revert c. induction chunks as [|text chunks IH]; intros c Hc.
  - cbn. now rewrite app_nil_r.
  - cbn [map Relay.readLoop flat_map].
    destruct (forwardEvents_readable (events text) c Hc) as [H1 _].
    rewrite (IH (forwardChunk c text) H1).
    unfold Relay.forwardChunk at 1.
    rewrite forwardEvents_console by exact Hc.
    unfold frames. now rewrite map_app, <- app_assoc.
Qed.

(** Chunk by chunk.  Whatever chunks have been read so far, the channel to
    the client is still open, and what has been enqueued is, chunk after
    chunk, the parsed payload of every block that starts with the marker and
    parses; a block that starts with the marker and does not parse is
    reported with [console.error] and contributes nothing, and the blocks
    after it are treated as before. *)
Theorem malformed_frames_are_skipped (chunks : list string) :
  let c := start JSON JSON_parse (Streaming (map Value chunks)) in
  let forwarded := flat_map (fun text => wellFormed (frames text)) chunks in
  let skipped := flat_map (fun text => malformed (frames text)) chunks in
  channel c = Readable
  /\ queue c = forwarded
  /\ clientFrames JSON JSON_stringify c
     = map (transform JSON JSON_stringify) forwarded
  /\ console c = map (fun _ => "Failed to parse SSE data:") skipped
  /\ (forall fs1 f fs2,
        JSON_parse (payload f) = None ->
        wellFormed (fs1 ++ f :: fs2) = wellFormed fs1 ++ wellFormed fs2)
  /\ (forall fs1 f fs2 v,
        JSON_parse (payload f) = Some v ->
        wellFormed (fs1 ++ f :: fs2) = wellFormed fs1 ++ v :: wellFormed fs2).
Proof.
  cbv zeta. unfold start, clientFrames.
  destruct (readLoop_values chunks (opening JSON) eq_refl) as [H1 [H2 H3]].
  pose proof (readLoop_console chunks (opening JSON) eq_refl) as H4.
  destruct (readLoop (map Value chunks) (opening JSON)) as [c e].
  cbn in H1, H2, H3, H4. subst e. rewrite H2, H3, H4.
  repeat split.
  - intros fs1 f fs2 Hf. rewrite wellFormed_app.
    cbn [Relay.wellFormed]. now rewrite Hf.
  - intros fs1 f fs2 v Hf. rewrite wellFormed_app.
    cbn [Relay.wellFormed]. now rewrite Hf.
Qed.

End WithJSON.

(** ** Chunks made of whole frames *)

Lemma splitBlankLine_step c s cur :
  s <> EmptyString -> Ascii.eqb c LF = false ->
  splitBlankLine (String c s) cur
  = splitBlankLine s (cur ++ String c "")%string.
Proof.
  intros Hs Hc. destruct s as [|c' s'']; [congruence|].
  change (splitBlankLine (String c (String c' s'')) cur)
    with (if Ascii.eqb c LF && Ascii.eqb c' LF
          then cur :: splitBlankLine s'' ""
          else splitBlankLine (String c' s'') (cur ++ String c "")%string).
  now rewrite Hc.
Qed.

Lemma string_app_empty (a : string) : (a ++ "")%string = a.
Proof. induction a; cbn; congruence. Qed.

Lemma string_app_assoc (a b c : string) :
  ((a ++ b) ++ c = a ++ (b ++ c))%string.
Proof. induction a; cbn; congruence. Qed.

Lemma splitBlankLine_line p rest cur :
  oneLine p = true ->
  splitBlankLine (p ++ blank ++ rest) cur
  = (cur ++ p)%string :: splitBlankLine rest "".
Proof.
  revert cur. induction p as [|c p IH]; intros cur Hp.
  - cbn. now rewrite string_app_empty.
  - cbn in Hp. apply andb_true_iff in Hp. destruct Hp as [Hc Hp].
    apply negb_true_iff in Hc.
    change (String c p ++ blank ++ rest)%string
      with (String c (p ++ blank ++ rest)).
    rewrite splitBlankLine_step; auto.
    + rewrite IH by exact Hp. rewrite string_app_assoc. reflexivity.
    + destruct p; discriminate.
Qed.

Lemma upstreamFrame_split p rest :
  oneLine p = true ->
  splitBlankLine (upstreamFrame p ++ rest) ""
  = ("data: " ++ p)%string :: splitBlankLine rest "".
Proof.
  intro Hp. unfold upstreamFrame.
  replace (("data: " ++ p ++ blank) ++ rest)%string
    with (("data: " ++ p) ++ blank ++ rest)%string
    by (now rewrite !string_app_assoc).
  now rewrite splitBlankLine_line.
Qed.

Lemma concat_frames payloads :
  String.concat "" (map upstreamFrame payloads)
  = fold_right (fun p acc => upstreamFrame p ++ acc)%string "" payloads.
Proof.
  induction payloads as [|p [|q ps] IH]; [reflexivity| |].
  - cbn [map String.concat fold_right]. now rewrite string_app_empty.
  - change (String.concat "" (map upstreamFrame (p :: q :: ps)))
      with (upstreamFrame p ++ ""
              ++ String.concat "" (map upstreamFrame (q :: ps)))%string.
    now rewrite IH.
Qed.

(** A chunk that carries whole frames with one-line payloads is decoded into
    exactly these frames. *)
Lemma whole_frames_decoded payloads :
  forallb oneLine payloads = true ->
  map payload (frames (String.concat "" (map upstreamFrame payloads)))
  = payloads.
Proof.
  intro H. rewrite concat_frames. unfold frames, events.
  induction payloads as [|p ps IH]; [reflexivity|].
  cbn in H. apply andb_true_iff in H. destruct H as [Hp Hps].
  cbn [fold_right]. rewrite upstreamFrame_split by exact Hp.
  change (filter truthy (("data: " ++ p)%string :: ?l))
    with (("data: " ++ p)%string :: filter truthy l).
  change (filter (startsWith "data: ") (("data: " ++ p)%string :: ?l))
    with (if startsWith "data: " ("data: " ++ p)
          then ("data: " ++ p)%string :: filter (startsWith "data: ") l
          else filter (startsWith "data: ") l).
  replace (startsWith "data: " ("data: " ++ p)) with true
    by (cbn; now destruct p).
  cbn [map]. rewrite IH by exact Hps. reflexivity.
Qed.

(** A malformed frame between two good ones, in one chunk. *)
Example skip_in_the_middle :
  clientFrames string printNumeral
    (start string parseNumeral
       (Streaming [Value ("data: 1" ++ blank ++ "data: oops" ++ blank
                          ++ "data: 22" ++ blank)%string]))
  = [("data: 1" ++ blank)%string; ("data: 22" ++ blank)%string].
Proof. reflexivity. Qed.

(** The relay reads frames chunk by chunk: a frame cut by a chunk boundary
    is read as two blocks, neither of which is forwarded. *)
Example frame_cut_by_chunks :
  clientFrames string printNumeral
    (start string parseNumeral
       (Streaming [Value "data: "; Value ("22" ++ blank)%string]))
  = [].
Proof. reflexivity. Qed.

End RelayFacts.

(* ================================================================== *)
(** * Facts about text *)
(* ================================================================== *)

Module JsTextFacts.
Import JsText.

Lemma dropWhile_nil p t :
  dropWhile p t = [] <-> forall c, In c t -> p c = true.
Proof.
  induction t as [|c t IH]; cbn.
  - split; [intros _ ? [] | reflexivity].
  - destruct (p c) eqn:Hc.
    + rewrite IH. split.
      * intros H x [<-|Hx]; auto.
      * intros H x Hx. apply H. now right.
    + split; [discriminate|]. intro H. rewrite H in Hc by now left.
      discriminate.
Qed.

Lemma dropWhile_head p t c t' : dropWhile p t = c :: t' -> p c = false.
Proof.
  induction t as [|x t IH]; cbn; [discriminate|].
  destruct (p x) eqn:Hx; auto. intro H. inversion H. now subst.
Qed.

Lemma dropWhile_suffix p t : exists dropped, t = dropped ++ dropWhile p t
                                       /\ forall c, In c dropped -> p c = true.
Proof.
  induction t as [|x t [d [Hd Hp]]]; cbn.
  - exists []. split; [reflexivity | intros ? []].
  - destruct (p x) eqn:Hx.
    + exists (x :: d). split; [cbn; congruence|].
      intros c [<-|Hc]; auto.
    + exists []. split; [reflexivity | intros ? []].
Qed.

Lemma dropWhile_keeps_last p l c :
  p c = false -> exists x, dropWhile p (l ++ [c]) = x ++ [c].
Proof.
  intro Hc. induction l as [|y l [x Hx]]; cbn.
  - rewrite Hc. now exists [].
  - destruct (p y).
    + now exists x.
    + now exists (y :: l).
Qed.

Lemma dropWhileEnd_keeps_head p c t :
  p c = false -> exists x, dropWhileEnd p (c :: t) = c :: x.
Proof.
  intro Hc. unfold dropWhileEnd. cbn [rev].
  destruct (dropWhile_keeps_last p (rev t) c Hc) as [x Hx].
  rewrite Hx, rev_app_distr. now exists (rev x).
Qed.

Lemma dropWhileEnd_last p t front c :
  dropWhileEnd p t = front ++ [c] -> p c = false.
Proof.
  unfold dropWhileEnd. intro H.
  apply (f_equal (@rev N)) in H. rewrite rev_involutive, rev_app_distr in H.
  cbn in H. now apply dropWhile_head in H.
Qed.

Lemma dropWhileEnd_nil p t :
  dropWhileEnd p t = [] <-> forall c, In c t -> p c = true.
Proof.
  unfold dropWhileEnd. split.
  - intros H c Hc. apply (f_equal (@rev N)) in H.
    rewrite rev_involutive in H. cbn in H.
    apply (proj1 (dropWhile_nil p (rev t)) H). now apply in_rev in Hc.
  - intro H. replace (dropWhile p (rev t)) with (@nil N); [reflexivity|].
    symmetry. apply dropWhile_nil. intros c Hc. apply H. now apply in_rev.
Qed.

Lemma strip_nil p t :
  dropWhileEnd p (dropWhile p t) = [] <-> forall c, In c t -> p c = true.
Proof.
  split.
  - intros H c Hc.
    destruct (dropWhile_suffix p t) as [d [Hd Hp]].
    rewrite Hd in Hc. apply in_app_or in Hc. destruct Hc as [Hc|Hc]; auto.
    apply (proj1 (dropWhileEnd_nil _ _) H c Hc).
  - intro H. apply dropWhileEnd_nil. intros c Hc. apply H.
    destruct (dropWhile_suffix p t) as [d [Hd _]].
    rewrite Hd. apply in_or_app. now right.
Qed.

Lemma strip_ends p t c t' :
  dropWhileEnd p (dropWhile p t) = c :: t' ->
  p c = false
  /\ exists front l, c :: t' = front ++ [l] /\ p l = false.
Proof.
  intro H.
  destruct (dropWhile p t) as [|x u] eqn:Hu; [discriminate|].
  pose proof (dropWhile_head _ _ _ _ Hu) as Hx.
  destruct (dropWhileEnd_keeps_head p x u Hx) as [y Hy].
  rewrite Hy in H. injection H as -> ->. split; [exact Hx|].
  destruct (exists_last (l := c :: t')) as [front [l Hl]]; [discriminate|].
  exists front, l. split; [exact Hl|].
  apply (dropWhileEnd_last p (c :: u) front l). congruence.
Qed.

Lemma trim_nil t :
  trim t = [] <-> forall c, In c t -> isWhiteSpace c = true.
Proof. apply strip_nil. Qed.

Lemma trim_ends t c t' :
  trim t = c :: t' ->
  isWhiteSpace c = false
  /\ exists front l, c :: t' = front ++ [l] /\ isWhiteSpace l = false.
Proof. apply strip_ends. Qed.

End JsTextFacts.

(* ================================================================== *)
(** * More facts about the console page *)
(* ================================================================== *)

Module ConsoleMore.
Import Console ConsoleFacts JsText JsTextFacts ConsoleControls.

(** ** The store under merges *)

Lemma slice_last_all {A} n (l : list A) :
  List.length l <= n -> slice_last n l = l.
Proof.
  intro H. unfold slice_last.
  now replace (List.length l - n) with 0 by lia.
Qed.

Lemma isDuplicate_app l added e :
  isDuplicate l e = true -> isDuplicate (l ++ added) e = true.
Proof.
  unfold isDuplicate. rewrite existsb_app. now intros ->.
Qed.

Lemma isDuplicate_self l e : isDuplicate (l ++ [e]) e = true.
Proof.
  apply isDuplicate_true. exists e. repeat split.
  apply in_or_app. right. now left.
Qed.

(** After a merge every entry of the batch is in the working store. *)
Lemma mergeBatch_covers prev batch e :
  In e batch -> isDuplicate (fst (mergeBatch prev batch)) e = true.
Proof.
  induction batch as [|x pre IH] using rev_ind; [intros []|].
  intro Hin. rewrite mergeBatch_snoc, pushEntry_eq.
  destruct (isDuplicate (fst (mergeBatch prev pre)) x) eqn:Hx; cbn [fst].
  - apply in_app_or in Hin. destruct Hin as [Hin|[<-|[]]]; auto.
  - apply in_app_or in Hin. destruct Hin as [Hin|[<-|[]]].
    + apply isDuplicate_app. auto.
    + apply isDuplicate_self.
Qed.

(** X1. A pushed batch never removes or reorders what the store holds other
    than by evicting from the front: the entries kept are the end of the old
    store followed by the entries appended, which all come from the batch;
    when something was appended exactly the last 1000 are kept (all, if
    fewer), and when nothing was appended the store is the same. *)
Theorem merge_keeps_order_and_newest e batch st :
  let st' := handle (StreamMessage (Parsed (Some (e :: batch)))) st in
  exists added evicted,
    logs st ++ added = evicted ++ logs st'
    /\ incl added (e :: batch)
    /\ (added = [] -> logs st' = logs st)
    /\ (isComponentMounted st = true -> added <> [] ->
        List.length (logs st')
        = Nat.min 1000 (List.length (logs st) + List.length added)).
Proof.
  cbv zeta. cbn [handle].
  destruct (isComponentMounted st) eqn:Hm.
  - rewrite onmessage_logs by exact Hm.
    destruct (mergeBatch_extends (logs st) (e :: batch))
      as [added [Hfst [Hincl Hnone]]].
    destruct (snd (mergeBatch (logs st) (e :: batch))) eqn:Hu.
    + destruct (mergeUpdater_updated _ _ Hu) as [f [l [_ [_ [_ [Heq _]]]]]].
      rewrite Heq. cbn [fst].
      destruct (slice_last_suffix capacity
                  (fst (mergeBatch (logs st) (e :: batch)))) as [ev [Hs _]].
      exists added, ev. rewrite <- Hfst.
      split; [exact Hs | split; [exact Hincl | split]].
      * intros ->. rewrite app_nil_r in Hfst.
        destruct (mergeBatch_updated _ _ Hu) as [f' [l' [Hf' [_ Hnew]]]].
        rewrite Hfst in Hf'.
        assert (isDuplicate (logs st) l' = true); [|congruence].
        rewrite Hf'. apply isDuplicate_self.
      * intros _ _. rewrite slice_last_length, Hfst, length_app. reflexivity.
    + rewrite mergeUpdater_unchanged by exact Hu. cbn [fst].
      exists [], []. rewrite app_nil_r.
      split; [reflexivity | split; [apply incl_nil_l | split]].
      * reflexivity.
      * intros _ H. now destruct H.
  - exists [], []. unfold onmessage. rewrite Hm. cbn [negb]. rewrite app_nil_r.
    split; [reflexivity | split; [apply incl_nil_l | split]].
    + reflexivity.
    + discriminate.
Qed.

(** X1 at an input: the thousand entries, then one more. *)
Lemma merge_keeps_order_and_newest_witness :
  exists added evicted,
    logs (handle (StreamMessage (Parsed (Some thousand))) live) ++ added
    = evicted
      ++ logs (handle (StreamMessage (Parsed (Some [numbered 1001])))
                 (handle (StreamMessage (Parsed (Some thousand))) live))
    /\ incl added [numbered 1001].
Proof.
  destruct (merge_keeps_order_and_newest (numbered 1001) []
              (handle (StreamMessage (Parsed (Some thousand))) live))
    as [added [evicted [H1 [H2 _]]]].
  exists added, evicted. split; [exact H1 | exact H2].
Defined.

(** X2. If no two stored entries share timestamp and content, no message
    makes two of them do so. *)
Theorem messages_keep_identities_distinct d st :
  NoDup (map identity (logs st)) ->
  NoDup (map identity (logs (handle (StreamMessage d) st))).
Proof.
  intro H. cbn [handle]. unfold onmessage.
  destruct (isComponentMounted st); cbn [negb]; auto.
  destruct d as [|[[|e batch]|]]; auto.
  pose proof (mergeUpdater_distinct (e :: batch) (logs st) H) as Hd.
  now destruct (mergeUpdater (e :: batch) (logs st)).
Qed.

Lemma messages_keep_identities_distinct_witness :
  NoDup (map identity
           (logs (handle (StreamMessage (Parsed (Some [a_at_1; a_at_1; b_at_2])))
                    live))).
Proof.
  apply messages_keep_identities_distinct. cbn. constructor.
Defined.

(** X3. Delivering a batch again right after it was merged changes nothing,
    neither the store nor the cursor, provided the merged store did not have
    to be trimmed. *)
Theorem redelivery_changes_nothing e batch st :
  List.length (fst (mergeBatch (logs st) (e :: batch))) <= 1000 ->
  let st1 := handle (StreamMessage (Parsed (Some (e :: batch)))) st in
  handle (StreamMessage (Parsed (Some (e :: batch)))) st1 = st1.
Proof.
  intro Hfit. cbv zeta. cbn [handle].
  destruct (isComponentMounted st) eqn:Hm.
  - assert (Hlogs : logs (onmessage (Parsed (Some (e :: batch))) st)
                    = fst (mergeBatch (logs st) (e :: batch))).
    { rewrite onmessage_logs by exact Hm.
      destruct (snd (mergeBatch (logs st) (e :: batch))) eqn:Hu.
      - destruct (mergeUpdater_updated _ _ Hu) as [f [l [_ [_ [_ [Heq _]]]]]].
        rewrite Heq. cbn [fst]. now apply slice_last_all.
      - rewrite mergeUpdater_unchanged by exact Hu. cbn [fst].
        destruct (mergeBatch_extends (logs st) (e :: batch))
          as [added [Hfst [_ Hnone]]].
        rewrite Hfst, (Hnone Hu). now rewrite app_nil_r. }
    assert (Hm1 : isComponentMounted (onmessage (Parsed (Some (e :: batch))) st)
                  = true).
    { unfold onmessage. rewrite Hm. cbn [negb].
      now destruct (mergeUpdater (e :: batch) (logs st)). }
    set (st1 := onmessage (Parsed (Some (e :: batch))) st) in *.
    unfold onmessage at 1. rewrite Hm1. cbn [negb].
    clearbody st1. rewrite mergeUpdater_unchanged.
    + destruct st1. cbn in Hm1. now subst.
    + rewrite mergeBatch_all_known; [reflexivity|].
      intros c Hc. rewrite Hlogs. now apply mergeBatch_covers.
  - assert (H : onmessage (Parsed (Some (e :: batch))) st = st)
      by (unfold onmessage; now rewrite Hm).
    now rewrite !H.
Qed.

Lemma redelivery_changes_nothing_witness :
  handle (StreamMessage (Parsed (Some [a_at_1; b_at_2]))) scenarioA = scenarioA.
Proof.
  refine (redelivery_changes_nothing a_at_1 [b_at_2]
            (handle (StreamMessage (Parsed (Some [a_at_1]))) live) _).
  cbn. lia.
Defined.

(** ** The subscription *)

(** X4. In every state the subscription can reach, a component that is not
    mounted has no open feed. *)
Theorem no_feed_without_mount st :
  reachable st -> isComponentMounted st = false -> isOpen st = false.
Proof.
  intros Hr Hm. destruct (isOpen st) eqn:Ho; [|reflexivity].
  rewrite (open_implies_mounted st Hr Ho) in Hm. discriminate.
Qed.

Lemma no_feed_without_mount_witness :
  isOpen (handle Teardown scenarioC) = false.
Proof.
  apply no_feed_without_mount; [|reflexivity].
  apply reach_step; [apply scenarioC_reachable | reflexivity].
Defined.

Lemma unmounted_ignores_network ev st :
  fromNetwork ev = true -> isComponentMounted st = false ->
  isComponentMounted (handle ev st) = false
  /\ logs (handle ev st) = logs st
  /\ lastTimestamp (handle ev st) = lastTimestamp st.
Proof.
  intros Hev Hm.
  destruct ev as [b throws|d| |throws| |a n1 n2 o|]; try discriminate;
    cbn [handle].
  - unfold initialSetup, fetchInitialLogs.
    destruct b as [|[l|] ts]; rewrite ?Hm; cbn; rewrite ?Hm; auto.
  - unfold onmessage. rewrite Hm. cbn. auto.
  - unfold onerror. rewrite Hm. cbn. auto.
  - unfold connectEventSource. cbn. rewrite Hm. cbn. auto.
Qed.

(** X5. After the cleanup nothing that comes from the network or from a
    timer (the backlog answer, pushed messages, feed errors, a reconnect
    timer) changes the store or the cursor. *)
Theorem teardown_freezes_store evs st :
  Forall (fun ev => fromNetwork ev = true) evs ->
  logs (run evs (handle Teardown st)) = logs st
  /\ lastTimestamp (run evs (handle Teardown st)) = lastTimestamp st.
Proof.
  intro Hevs.
  assert (H : forall s, isComponentMounted s = false ->
                        logs (run evs s) = logs s
                        /\ lastTimestamp (run evs s) = lastTimestamp s).
  { induction Hevs as [|ev evs Hev _ IH]; intros s Hs; [now split|].
    change (run (ev :: evs) s) with (run evs (handle ev s)).
    destruct (unmounted_ignores_network ev s Hev Hs) as [H1 [H2 H3]].
    destruct (IH _ H1) as [I1 I2]. split; congruence. }
  apply (H (handle Teardown st)). reflexivity.
Qed.

Lemma teardown_freezes_store_witness :
  logs (run [StreamMessage (Parsed (Some [mkLog "4" info "d"]));
             ReconnectTimer false]
            (handle Teardown scenarioC))
  = logs scenarioC.
Proof.
  apply teardown_freezes_store. repeat constructor.
Defined.

(** ** The buttons and the command form *)

(** X6. A control action keeps every line of the store in place and adds
    two: first the command line of the action, then one result line, which is
    of type info exactly when the backend reported success and of type error
    otherwise. *)
Theorem server_action_appends_two a now1 now2 o l :
  exists result,
    handleServerAction a now1 now2 o l
    = l ++ [mkLog now1 command (commandMessages a); result]
    /\ timestamp result = now2
    /\ (type result = info <-> o = Succeeded)
    /\ (type result = error <-> o <> Succeeded).
Proof.
  unfold handleServerAction.
  destruct o as [m| | |[m|]]; eexists;
    (split; [rewrite <- app_assoc; reflexivity|]);
    cbn; repeat split; intros; try discriminate; try congruence.
Qed.

(** X7. Whatever the status, exactly one of Start and Stop can be pressed;
    Restart can be pressed only when Stop and Force Stop can; Force Stop can
    be pressed exactly when the server is not stopped; and pressing a
    disabled button leaves the store as it is (Scenario E: Force Stop on a
    stopped server). *)
Theorem control_buttons_gating s :
  disabled Console.start s = negb (disabled Console.stop s)
  /\ (disabled Console.restart s = false ->
      disabled Console.stop s = false /\ disabled Console.force_stop s = false)
  /\ (disabled Console.force_stop s = true <-> s = stopped)
  /\ (forall a now1 now2 o l,
        disabled a s = true -> clickControl a s now1 now2 o l = l).
Proof.
  split; [|split; [|split]].
  - now destruct s.
  - destruct s; cbn; intro; try discriminate; auto.
  - destruct s; cbn; split; intro; try discriminate; auto.
  - intros a now1 now2 o l H. unfold clickControl. now rewrite H.
Qed.

Lemma control_buttons_gating_witness :
  clickControl Console.force_stop stopped "t1" "t2" Succeeded [a_at_1]
  = [a_at_1].
Proof.
  apply (proj2 (proj2 (proj2 (control_buttons_gating stopped)))).
  reflexivity.
Defined.

(** X8. A command made only of white space is not sent and stays in the
    field.  Any other command is posted trimmed, with no white space at
    either end, and the field is emptied exactly when the backend reported
    success; a failure shows a toast and leaves the typed command. *)
Theorem command_is_sent_trimmed command o :
  match posted (handleCommand command o) with
  | None =>
      (forall c, In c command -> isWhiteSpace c = true)
      /\ command_after (handleCommand command o) = command
      /\ toast (handleCommand command o) = None
  | Some text =>
      text = trim command
      /\ (exists first rest, text = first :: rest
                             /\ isWhiteSpace first = false)
      /\ (exists front last, text = front ++ [last]
                             /\ isWhiteSpace last = false)
      /\ (command_after (handleCommand command o) = [] <-> o = SendSucceeded)
      /\ (toast (handleCommand command o) = None <-> o = SendSucceeded)
      /\ (o <> SendSucceeded ->
          command_after (handleCommand command o) = command)
  end.
Proof.
  unfold handleCommand.
  destruct (trim command) as [|c t] eqn:Ht.
  - cbn. repeat split. now apply trim_nil.
  - destruct (trim_ends _ _ _ Ht) as [Hc [front [l [Hl Hw]]]].
    assert (Hne : command <> []) by (intros ->; discriminate).
    destruct o as [m| | |[m|]]; cbn;
      (split; [reflexivity|]);
      (split; [now exists c, t|]);
      (split; [now exists front, l|]);
      repeat split; intros; try discriminate; try congruence;
      try (exfalso; auto; fail).
Qed.

End ConsoleMore.

(* ================================================================== *)
(** * More facts about the dashboard page *)
(* ================================================================== *)

Module DashboardMore.
Import Dashboard DashboardFacts DashboardNet.

Ltac run_page :=
  unfold try_catch, bind, fetch, json, ret, throw, setServers,
    setPortConflict, console_error, onClose;
  cbn;
  repeat match goal with
         | |- context [match ?net ?trace with Rejected _ => _ | Resolved _ => _ end] =>
             destruct (net trace) as [?|?]; cbn
         | |- context [if ok ?r then _ else _] => destruct (ok r); cbn
         | |- context [match body ?r with Some _ => _ | None => _ end] =>
             destruct (body r); cbn
         end.

(** X9. A stop request is never held back by the port check: whatever the
    list holds, the control request "stop" is the first request made, and the
    conflict state is not touched. *)
Theorem stop_is_never_gated net r server w :
  let w' := snd (handleServerAction net r server stop w) in
  exists rest,
    requests w' = requests w ++ POST_control (id server) stop :: rest
    /\ (rest = [] \/ rest = [GET_servers])
    /\ next_portConflict w' = next_portConflict w.
Proof. apply (handleServerAction_issues net r server stop w). exact I. Qed.

(** X10. When the control request is rejected or answered with a status
    that is not ok, no other request is made, the list and the conflict state
    stay as they are, and one line is written with [console.error]. *)
Theorem failed_control_keeps_list net r server action w :
  match action with
  | start => find (conflictsWith server) (servers r) = None
  | stop => True
  end ->
  notOk (net (requests w ++ [POST_control (id server) action])) ->
  let w' := snd (handleServerAction net r server action w) in
  requests w' = requests w ++ [POST_control (id server) action]
  /\ next_servers w' = next_servers w
  /\ next_portConflict w' = next_portConflict w
  /\ exists line, console w' = console w ++ [line].
Proof.
  intros Hfind Hfail. unfold handleServerAction.
  replace (match action with
           | start => find (conflictsWith server) (servers r)
           | stop => None
           end) with (@None ServerListItem)
    by (destruct action; [now rewrite Hfind | reflexivity]).
  unfold notOk in Hfail.
  unfold try_catch, bind, fetch, json, ret, throw, console_error. cbn.
  destruct (net (requests w ++ [POST_control (id server) action]))
    as [m|response]; cbn.
  - repeat split. eexists. reflexivity.
  - rewrite Hfail. destruct (body response); cbn;
      repeat split; eexists; reflexivity.
Qed.

Lemma failed_control_keeps_list_witness :
  next_servers (snd (handleServerAction downBackend renderB serverX stop
                       (worldOf renderB)))
  = [serverX; serverY].
Proof.
  apply (failed_control_keeps_list downBackend renderB serverX stop
           (worldOf renderB) I I).
Defined.

(** X11. After a control request that was answered ok, the list becomes
    what the [servers] field of the refresh answer holds, and the empty list
    when that answer has no such field; the status of the refresh answer is
    not looked at. *)
Theorem refresh_replaces_list net r server action w control refreshed data :
  match action with
  | start => find (conflictsWith server) (servers r) = None
  | stop => True
  end ->
  net (requests w ++ [POST_control (id server) action]) = Resolved control ->
  ok control = true ->
  net ((requests w ++ [POST_control (id server) action]) ++ [GET_servers])
  = Resolved refreshed ->
  body refreshed = Some data ->
  next_servers (snd (handleServerAction net r server action w))
  = match body_servers data with Some l => l | None => [] end.
Proof.
  intros Hfind Hc Hok Hr Hb. unfold handleServerAction.
  replace (match action with
           | start => find (conflictsWith server) (servers r)
           | stop => None
           end) with (@None ServerListItem)
    by (destruct action; [now rewrite Hfind | reflexivity]).
  unfold try_catch, bind, fetch, json, ret, throw, setServers. cbn.
  rewrite Hc. cbn. rewrite Hok. cbn. rewrite Hr. cbn. rewrite Hb. reflexivity.
Qed.

Lemma refresh_replaces_list_witness :
  next_servers (snd (handleServerAction obligingBackend renderB serverX stop
                       (worldOf renderB)))
  = [serverX; serverY' "25565"].
Proof.
  exact (refresh_replaces_list obligingBackend renderB serverX stop
           (worldOf renderB) _ _ _ I eq_refl eq_refl eq_refl eq_refl).
Defined.

(** X12. When the properties update is rejected or answered with a status
    that is not ok, [handleChangePort] makes no other request: the list is
    not refreshed, no start is attempted, and the list and the conflict state
    stay as they are. *)
Theorem failed_port_update_stops_there net r current p w :
  currentServer (portConflict r) = Some current ->
  notOk (net (requests w ++ [POST_properties (id current) p])) ->
  let w' := snd (handleChangePort net r p w) in
  requests w' = requests w ++ [POST_properties (id current) p]
  /\ next_servers w' = next_servers w
  /\ next_portConflict w' = next_portConflict w.
Proof.
  intros Hcur Hfail. unfold handleChangePort. rewrite Hcur.
  unfold notOk in Hfail.
  unfold try_catch, bind, fetch, json, ret, throw, console_error. cbn.
  destruct (net (requests w ++ [POST_properties (id current) p]))
    as [m|response]; cbn.
  - repeat split.
  - rewrite Hfail. destruct (body response); cbn; repeat split.
Qed.

Lemma failed_port_update_stops_there_witness :
  requests (snd (handleChangePort readOnlyBackend renderDialog "25566"
                   (worldOf renderDialog)))
  = [POST_properties "y" "25566"].
Proof.
  apply (failed_port_update_stops_there readOnlyBackend renderDialog serverY
           "25566" (worldOf renderDialog) eq_refl).
  reflexivity.
Defined.

(** X13. "Stop the conflicting server" asks the backend to stop that server
    and nothing else but the list refresh: it never starts the server the
    user wanted to start, and it closes the dialog whatever the backend
    answers. *)
Theorem stop_conflicting_only_stops net r conflicting w :
  conflictingServer (portConflict r) = Some conflicting ->
  let w' := snd (dialogHandleStopServer net r w) in
  exists rest,
    requests w' = requests w ++ POST_control (id conflicting) stop :: rest
    /\ (rest = [] \/ rest = [GET_servers])
    /\ next_portConflict w' = mkConflict false None None.
Proof.
  intro Hc. unfold dialogHandleStopServer, handleServerAction. rewrite Hc.
  run_page; rewrite <- ?app_assoc; cbn; eexists;
    (split; [reflexivity | split; [auto | reflexivity]]).
Qed.

Lemma stop_conflicting_only_stops_witness :
  exists rest,
    requests (snd (dialogHandleStopServer obligingBackend renderDialog
                     (worldOf renderDialog)))
    = [] ++ POST_control "x" stop :: rest
    /\ (rest = [] \/ rest = [GET_servers])
    /\ next_portConflict (snd (dialogHandleStopServer obligingBackend
                                 renderDialog (worldOf renderDialog)))
       = mkConflict false None None.
Proof.
  apply (stop_conflicting_only_stops obligingBackend renderDialog serverX
           (worldOf renderDialog) eq_refl).
Defined.

(** X14. "Change Port" can be pressed exactly when nothing is being
    submitted and the field is neither empty nor the current port.  Pressed
    while disabled it does nothing; pressed while enabled it first requests
    the properties update with the value of the field and, whatever the
    backend answers, ends with the dialog closed. *)
Theorem change_port_button net r d conflicting current w :
  conflictingServer (portConflict r) = Some conflicting ->
  currentServer (portConflict r) = Some current ->
  (changePortDisabled d current = false <->
   isSubmitting d = false /\ newPort d <> "" /\ newPort d <> port current)
  /\ (changePortDisabled d current = true ->
      clickChangePort net r d w = (Returned tt, w))
  /\ (changePortDisabled d current = false ->
      let w' := snd (clickChangePort net r d w) in
      (exists rest,
         requests w'
         = requests w ++ POST_properties (id current) (newPort d) :: rest)
      /\ next_portConflict w' = mkConflict false None None).
Proof.
  intros Hc Hcur. split; [|split].
  - unfold changePortDisabled.
    rewrite !orb_false_iff, !String.eqb_neq. tauto.
  - intro Hd. unfold clickChangePort. now rewrite Hc, Hcur, Hd.
  - intro Hd. unfold clickChangePort. rewrite Hc, Hcur, Hd.
    unfold dialogHandleChangePort, handleChangePort, handleServerAction.
    rewrite Hcur.
    destruct (find (conflictsWith current) (servers r));
      run_page; rewrite <- ?app_assoc; cbn;
      (split; [eexists; reflexivity | reflexivity]).
Qed.

Lemma change_port_button_witness :
  clickChangePort obligingBackend renderDialog (mkDialog "25565" false)
    (worldOf renderDialog)
  = (Returned tt, worldOf renderDialog).
Proof.
  apply (proj1 (proj2 (change_port_button obligingBackend renderDialog
                         (mkDialog "25565" false) serverX serverY
                         (worldOf renderDialog) eq_refl eq_refl))).
  reflexivity.
Defined.

(** X15. Loading the list always ends the loading state.  It ends without
    an error exactly when the answer is ok, parses and says [success]; then
    the list is the [servers] field of the answer (empty when absent).  In
    every other case an error message is set and the list is left as it
    was. *)
Theorem fetchServers_outcomes result p :
  let p' := DashboardLoad.fetchServers result p in
  DashboardLoad.isLoading p' = false
  /\ (DashboardLoad.error p' = None <->
      exists data, result = DashboardLoad.ListAnswered true (Some data)
                   /\ DashboardLoad.success data = true)
  /\ (forall data, result = DashboardLoad.ListAnswered true (Some data) ->
                   DashboardLoad.success data = true ->
                   DashboardLoad.servers p'
                   = match DashboardLoad.list_servers data with
                     | Some l => l
                     | None => []
                     end)
  /\ (DashboardLoad.error p' <> None ->
      DashboardLoad.servers p' = DashboardLoad.servers p).
Proof.
  cbv zeta. unfold DashboardLoad.fetchServers.
  destruct result as [m|[|] [data|]]; cbn;
    try destruct (DashboardLoad.success data) eqn:Hs; cbn;
    (split; [reflexivity|]);
    (split; [split; [try discriminate; intros _; eauto
                    | intros [d [H Hd]]; inversion H; subst; congruence
                       || discriminate]|]);
    (split; [intros d H Hd; inversion H; subst; congruence || reflexivity|]);
    try reflexivity; intro H; try reflexivity; now destruct H.
Qed.

End DashboardMore.

(* ================================================================== *)
(** * More facts about the WebSocket upgrade route *)
(* ================================================================== *)

Module WsProxyMore.
Import JsString WsProxy.

(** X16. The route makes a handshake request exactly when it does not answer
    426, and then makes one only, to the socket of the server for the channel
    named by the path.  It never answers 101: when the handshake request is
    rejected the answer is 500; when it is answered with a status other than
    101 the answer is 502; and when it is answered 101, the response with
    status 101 cannot be built, so the answer is the 500 of the [catch]
    block as well. *)
Theorem handshake_only_for_upgrades upstream request serverId :
  let result := GET upstream request serverId in
  let failed :=
    mkNextResponse (Some "Failed to connect to WebSocket server") 500 [] in
  (snd result = [] <-> response_status (fst result) = 426)
  /\ response_status (fst result) <> 101
  /\ (forall h, In h (snd result) ->
        snd result = [h]
        /\ wsUrl h = ("ws://localhost:8765/" ++ serverId ++ "/"
                        ++ messageType (pathname request))%string
        /\ (upstream h = None -> fst result = failed)
        /\ (forall response,
              upstream h = Some response -> upstream_status response = 101 ->
              fst result = failed)
        /\ (forall response,
              upstream h = Some response -> upstream_status response <> 101 ->
              response_status (fst result) = 502)).
Proof.
  cbv zeta. unfold GET.
  destruct (match headers_get (headers request) "upgrade" with
            | Some v => negb (truthy v) || negb (toLowerCase v =? "websocket")
            | None => true
            end).
  - cbn. split; [split; reflexivity|]. split; [discriminate | intros h []].
  - match goal with
    | |- context [upstream ?x] => set (hs := x)
    end.
    destruct (upstream hs) as [response|] eqn:Hup;
      [destruct (upstream_status response =? 101)%nat eqn:Hst|]; cbn;
      (split; [split; [discriminate | intro; discriminate]|]);
      (split; [discriminate|]);
      intros h [<-|[]];
      (split; [reflexivity|]); (split; [reflexivity|]);
      (split; [intro; first [reflexivity | congruence]|]).
    + apply Nat.eqb_eq in Hst. split.
      * intros r Hr H101. reflexivity.
      * intros r Hr Hne. congruence.
    + apply Nat.eqb_neq in Hst. split.
      * intros r Hr H101. congruence.
      * intros r Hr Hne. reflexivity.
    + split; intros r Hr; congruence.
Qed.

Lemma handshake_only_for_upgrades_witness :
  fst (GET switching upgradeRequest "survival")
  = mkNextResponse (Some "Failed to connect to WebSocket server") 500 [].
Proof.
  exact (proj1 (proj2 (proj2 (proj2 (proj2 (proj2
           (handshake_only_for_upgrades switching upgradeRequest "survival"))
           _ (or_introl eq_refl)))))
           (mkUpstreamResponse 101
              [("upgrade", "websocket"); ("connection", "Upgrade")])
           eq_refl eq_refl).
Defined.

Lemma splitChar_app sep a b cur :
  splitChar sep (a ++ String sep b) cur
  = splitChar sep a cur ++ splitChar sep b "".
Proof.
  revert cur. induction a as [|c a IH]; intro cur; cbn.
  - now rewrite Ascii.eqb_refl.
  - destruct (Ascii.eqb c sep); cbn; now rewrite IH.
Qed.

Lemma last_segment_console segments :
  match nth_error (segments ++ ["console"])
                  (List.length (segments ++ ["console"]) - 1) with
  | Some seg => if seg =? "console" then "console" else "status"
  | None => "status"
  end = "console".
Proof.
  rewrite length_app. cbn [List.length].
  replace (List.length segments + 1 - 1) with (List.length segments) by lia.
  rewrite nth_error_app2 by lia. now rewrite Nat.sub_diag.
Qed.

(** X17. The channel is "console" for every path that ends in the segment
    console, with or without a slash after it, and is "console" or "status"
    for every path. *)
Theorem messageType_of_paths dir p :
  messageType (dir ++ "/console") = "console"
  /\ messageType (dir ++ "/console/") = "console"
  /\ (messageType p = "console" \/ messageType p = "status").
Proof.
  split; [|split].
  - unfold messageType.
    change (dir ++ "/console")%string with (dir ++ String "/" "console")%string.
    rewrite splitChar_app, filter_app.
    change (filter truthy (splitChar "/" "console" "")) with ["console"].
    apply last_segment_console.
  - unfold messageType.
    change (dir ++ "/console/")%string
      with (dir ++ String "/" "console/")%string.
    rewrite splitChar_app, filter_app.
    change (filter truthy (splitChar "/" "console/" "")) with ["console"].
    apply last_segment_console.
  - unfold messageType.
    destruct (nth_error _ _) as [seg|]; [|now right].
    destruct (seg =? "console"); auto.
Qed.

End WsProxyMore.

(* ================================================================== *)
(** * More facts about the console stream route *)
(* ================================================================== *)

Module RelayMore.
Import JsString Relay RelayFacts.

Section WithJSON.

Variable JSON : Type.
Variable JSON_parse : string -> option JSON.
Variable JSON_stringify : JSON -> string.

Local Abbreviation forwardEvent := (forwardEvent JSON JSON_parse).
Local Abbreviation forwardChunk := (forwardChunk JSON JSON_parse).
Local Abbreviation readLoop := (readLoop JSON JSON_parse).
Local Abbreviation wellFormed := (wellFormed JSON JSON_parse).
Local Abbreviation start := (start JSON JSON_parse).
Local Abbreviation transform := (transform JSON JSON_stringify).
Local Abbreviation clientFrames := (clientFrames JSON JSON_stringify).

Lemma readLoop_app chunks rest (c : Controller JSON) :
  readLoop (map Value chunks ++ rest) c
  = readLoop rest (fst (readLoop (map Value chunks) c)).
Proof.
  revert c. induction chunks as [|text chunks IH]; intro c; [reflexivity|].
  cbn [map app Relay.readLoop]. apply IH.
Qed.

(** X18. When the backend finishes, the channel is closed after everything
    read so far has been forwarded, and what the reader would give later is
    never looked at.  When a read fails, the channel is put in error with the
    message of the failure, which is also written with [console.error].  When
    the backend cannot be reached, answers with a status that is not ok, or
    has no body, the channel is put in error and nothing has been
    forwarded. *)
Theorem relay_ends_with_the_backend chunks rest m status :
  let forwarded := flat_map (fun text => wellFormed (frames text)) chunks in
  (let c := start (Streaming (map Value chunks ++ Done :: rest)) in
   channel c = Closed /\ queue c = forwarded)
  /\ (let c := start (Streaming (map Value chunks ++ ReadRejected m :: rest)) in
      channel c = Errored m /\ queue c = forwarded
      /\ exists earlier,
           console c = earlier ++ [("SSE stream error: " ++ m)%string])
  /\ (channel (start (ConnectRejected m)) = Errored m
      /\ queue (start (ConnectRejected m)) = [])
  /\ (channel (start (NotOk status))
      = Errored ("Backend responded with " ++ status)%string
      /\ queue (start (NotOk status)) = [])
  /\ (channel (start NoBody) = Errored "No response body"
      /\ queue (start NoBody) = []).
Proof.
  cbv zeta.
  destruct (readLoop_values JSON JSON_parse chunks (opening JSON) eq_refl)
    as [H1 [H2 H3]].
  split; [|split; [|repeat split]].
  - unfold Relay.start. rewrite readLoop_app.
    destruct (readLoop (map Value chunks) (opening JSON)) as [c e].
    cbn in *. unfold controller_close. rewrite H2. cbn. auto.
  - unfold Relay.start. rewrite readLoop_app.
    destruct (readLoop (map Value chunks) (opening JSON)) as [c e].
    cbn in *. unfold failWith, controller_close, controller_error,
                console_error. cbn. rewrite H2. cbn.
    repeat split; auto. eexists. reflexivity.
Qed.

Lemma forwardEvents_without_marker evs (c : Controller JSON) :
  filter (startsWith "data: ") evs = [] ->
  fold_left forwardEvent evs c = c.
Proof.
  revert c. induction evs as [|ev evs IH]; intros c H; [reflexivity|].
  cbn [filter] in H. cbn [fold_left]. unfold Relay.forwardEvent at 2.
  destruct (startsWith "data: " ev); [discriminate|]. now apply IH.
Qed.

(** X19. A chunk in which no block starts with the marker (comments, keep
    alive lines, event names, blank lines, an empty chunk) changes nothing:
    nothing is forwarded and nothing is logged. *)
Theorem blocks_without_marker_are_dropped text (c : Controller JSON) :
  frames text = [] -> forwardChunk c text = c.
Proof.
  intro H. unfold Relay.forwardChunk. now apply forwardEvents_without_marker.
Qed.

Lemma wellFormed_printed vs :
  (forall v, JSON_parse (JSON_stringify v) = Some v) ->
  forall fs, map payload fs = map JSON_stringify vs -> wellFormed fs = vs.
Proof.
  intro Hround. induction vs as [|v vs IH]; intros [|f fs] H;
    try discriminate; [reflexivity|].
  cbn [map] in H. injection H as Hf Hfs.
  cbn [Relay.wellFormed]. rewrite Hf, Hround. f_equal. now apply IH.
Qed.

(** X20. If every value parses back from its printed form and is printed on
    one line, then for chunks that each carry whole frames the relay is
    transparent: the client is sent exactly the frames the backend wrote, in
    order. *)
Theorem relay_is_transparent (batches : list (list JSON)) :
  (forall v, JSON_parse (JSON_stringify v) = Some v) ->
  (forall v, oneLine (JSON_stringify v) = true) ->
  let written vs := map (fun v => upstreamFrame (JSON_stringify v)) vs in
  let chunks := map (fun vs => String.concat "" (written vs)) batches in
  let c := start (Streaming (map Value chunks)) in
  queue c = List.concat batches
  /\ clientFrames c = written (List.concat batches).
Proof.
  intros Hround Hline. cbv zeta.
  assert (Hq : queue (start (Streaming
                 (map Value
                    (map (fun vs =>
                            String.concat ""
                              (map (fun v => upstreamFrame (JSON_stringify v)) vs))
                         batches))))
               = List.concat batches).
  { unfold Relay.start.
    destruct (readLoop_values JSON JSON_parse
                (map (fun vs =>
                        String.concat ""
                          (map (fun v => upstreamFrame (JSON_stringify v)) vs))
                     batches) (opening JSON) eq_refl) as [H1 [_ H3]].
    destruct (readLoop _ _) as [c e]. cbn in H1, H3. subst e. rewrite H3.
    cbn [queue opening app]. clear H3.
    induction batches as [|vs batches IH]; [reflexivity|].
    cbn [map flat_map List.concat]. rewrite IH. f_equal.
    apply wellFormed_printed; [exact Hround|].
    rewrite <- (map_map JSON_stringify upstreamFrame).
    apply whole_frames_decoded.
    apply forallb_forall. intros x Hx. apply in_map_iff in Hx.
    destruct Hx as [v [<- _]]. apply Hline. }
  split; [exact Hq|].
  unfold Relay.clientFrames. rewrite Hq. reflexivity.
Qed.

(** ** Frames cut by a chunk boundary *)

Lemma startsWith_marker p : startsWith "data: " ("data: " ++ p) = true.
Proof. cbn. now destruct p. Qed.

Lemma frames_of_two bad good :
  oneLine bad = true -> oneLine good = true ->
  frames (upstreamFrame bad ++ upstreamFrame good)
  = [("data: " ++ bad)%string; ("data: " ++ good)%string].
Proof.
  intros Hb Hg. unfold frames, events.
  rewrite upstreamFrame_split by exact Hb.
  rewrite <- (string_app_empty (upstreamFrame good)).
  rewrite upstreamFrame_split by exact Hg.
  cbn [splitBlankLine filter truthy].
  change (truthy ("data: " ++ bad)) with true.
  change (truthy ("data: " ++ good)) with true.
  cbn [filter String.eqb negb].
  now rewrite !startsWith_marker.
Qed.

Lemma frames_of_head bad :
  oneLine bad = true ->
  frames (upstreamFrame bad ++ "data") = [("data: " ++ bad)%string].
Proof.
  intro Hb. unfold frames, events.
  rewrite upstreamFrame_split by exact Hb.
  change (splitBlankLine "data" "") with ["data"].
  change (filter truthy [("data: " ++ bad)%string; "data"])
    with [("data: " ++ bad)%string; "data"].
  cbn [filter]. rewrite startsWith_marker. reflexivity.
Qed.

Lemma frames_of_tail good :
  oneLine good = true -> frames (": " ++ good ++ blank) = [].
Proof.
  intro Hg. unfold frames, events.
  replace (": " ++ good ++ blank)%string
    with ((": " ++ good) ++ blank ++ "")%string
    by (rewrite string_app_assoc; now rewrite string_app_empty).
  rewrite splitBlankLine_line by exact Hg.
  reflexivity.
Qed.

Lemma start_one_chunk text :
  channel (start (Streaming [Value text])) = Readable
  /\ queue (start (Streaming [Value text])) = wellFormed (frames text).
Proof.
  destruct (readLoop_values JSON JSON_parse [text] (opening JSON) eq_refl)
    as [H1 [H2 H3]].
  unfold Relay.start.
  change (map Value [text]) with [Value text] in *.
  destruct (readLoop [Value text] (opening JSON)) as [c e].
  cbn [fst snd] in *. subst e. rewrite H2, H3. cbn. now rewrite app_nil_r.
Qed.

Lemma start_two_chunks text1 text2 :
  channel (start (Streaming [Value text1; Value text2])) = Readable
  /\ queue (start (Streaming [Value text1; Value text2]))
     = wellFormed (frames text1) ++ wellFormed (frames text2).
Proof.
  destruct (readLoop_values JSON JSON_parse [text1; text2] (opening JSON)
              eq_refl) as [H1 [H2 H3]].
  unfold Relay.start.
  change (map Value [text1; text2]) with [Value text1; Value text2] in *.
  destruct (readLoop [Value text1; Value text2] (opening JSON)) as [c e].
  cbn [fst snd] in *. subst e. rewrite H2, H3. cbn. now rewrite app_nil_r.
Qed.

(** C8. The relay decodes every chunk on its own and keeps nothing from one
    read to the next.  Let the backend write a frame whose payload does not
    parse and then a frame whose payload parses.  Read in one chunk, the
    first frame is skipped, the channel stays open and the second frame is
    forwarded with its value.  Read in two chunks that cut the second frame
    after the first four characters of its marker, the same text forwards
    nothing: the well-formed frame that follows the malformed one is lost
    (the channel stays open). *)
Theorem cut_frame_is_not_forwarded bad good v :
  oneLine bad = true -> oneLine good = true ->
  JSON_parse bad = None -> JSON_parse good = Some v ->
  let written := (upstreamFrame bad ++ upstreamFrame good)%string in
  let chunk1 := (upstreamFrame bad ++ "data")%string in
  let chunk2 := (": " ++ good ++ blank)%string in
  (chunk1 ++ chunk2)%string = written
  /\ (let c := start (Streaming [Value written]) in
      channel c = Readable
      /\ queue c = [v]
      /\ clientFrames c = [upstreamFrame (JSON_stringify v)])
  /\ (let c := start (Streaming [Value chunk1; Value chunk2]) in
      channel c = Readable
      /\ queue c = []
      /\ clientFrames c = []).
Proof.
  intros Hb Hg Hbad Hgood. cbv zeta. split; [|split].
  - unfold upstreamFrame. rewrite !string_app_assoc. reflexivity.
  - destruct (start_one_chunk (upstreamFrame bad ++ upstreamFrame good))
      as [H1 H2].
    rewrite frames_of_two in H2 by assumption.
    cbn [Relay.wellFormed] in H2.
    change (payload ("data: " ++ bad)) with bad in H2.
    change (payload ("data: " ++ good)) with good in H2.
    rewrite Hbad, Hgood in H2.
    split; [exact H1 | split; [exact H2|]].
    unfold Relay.clientFrames. rewrite H2. reflexivity.
  - destruct (start_two_chunks (upstreamFrame bad ++ "data")
                (": " ++ good ++ blank)) as [H1 H2].
    rewrite frames_of_head, frames_of_tail in H2 by assumption.
    cbn [Relay.wellFormed app] in H2.
    change (payload ("data: " ++ bad)) with bad in H2.
    rewrite Hbad in H2.
    split; [exact H1 | split; [exact H2|]].
    unfold Relay.clientFrames. rewrite H2. reflexivity.
Qed.

End WithJSON.

(** C8 at an input: "oops" and then "true", the second frame cut. *)
Lemma cut_frame_is_not_forwarded_witness :
  Relay.clientFrames bool RelayBool.printBool
    (Relay.start bool RelayBool.parseBool
       (Streaming [Value (upstreamFrame "oops" ++ upstreamFrame "true")%string]))
  = [upstreamFrame "true"]
  /\ Relay.clientFrames bool RelayBool.printBool
       (Relay.start bool RelayBool.parseBool
          (Streaming [Value (upstreamFrame "oops" ++ "data")%string;
                      Value (": true" ++ blank)%string]))
     = [].
Proof.
  destruct (cut_frame_is_not_forwarded bool RelayBool.parseBool
              RelayBool.printBool "oops" "true" true
              eq_refl eq_refl eq_refl eq_refl)
    as [_ [[_ [_ H1]] [_ [_ H2]]]].
  split; [exact H1 | exact H2].
Defined.

(** The same loss when the cut falls inside the payload: the first part is
    read as a frame that does not parse, the rest as a block without
    marker. *)
Example frame_cut_inside_payload :
  Relay.queue
    (Relay.start bool RelayBool.parseBool
       (Streaming [Value (upstreamFrame "oops" ++ "data: tr")%string;
                   Value ("ue" ++ blank)%string]))
  = [].
Proof. reflexivity. Qed.

Lemma relay_is_transparent_witness :
  Relay.clientFrames bool RelayBool.printBool
    (Relay.start bool RelayBool.parseBool
       (Streaming [Value (upstreamFrame "true" ++ upstreamFrame "false")%string;
                   Value (upstreamFrame "true")]))
  = [upstreamFrame "true"; upstreamFrame "false"; upstreamFrame "true"].
Proof.
  refine (proj2 (relay_is_transparent bool RelayBool.parseBool
                   RelayBool.printBool [[true; false]; [true]] _ _)).
  - now intros [|].
  - now intros [|].
Defined.

Lemma blocks_without_marker_are_dropped_witness :
  Relay.forwardChunk bool RelayBool.parseBool (opening bool)
    (": keep-alive" ++ blank ++ "event: ping" ++ blank)%string
  = opening bool.
Proof.
  apply blocks_without_marker_are_dropped. reflexivity.
Defined.

End RelayMore.

(* ================================================================== *)
(** * Facts about the forwarding routes *)
(* ================================================================== *)

Module RoutesFacts.
Import Routes.

Section WithJSON.

Variable JSON : Type.
Variable message : JSON -> option string.
Variable readAction : JSON -> option bool.

Local Abbreviation Backend := (Backend JSON).
Local Abbreviation answer := (answer JSON message).

Lemma answer_status fallback r :
  (status JSON (answer fallback r) = 200
   \/ status JSON (answer fallback r) = 500)
  /\ (status JSON (answer fallback r) = 200 <->
      exists response parsed,
        r = Answered JSON response
        /\ ok JSON response = true /\ json JSON response = Some parsed
        /\ body JSON (answer fallback r) = Result JSON parsed).
Proof.
  unfold Routes.answer.
  destruct r as [m|[o [parsed|]]]; [| destruct o |]; cbn [json ok status body].
  - split; [now right|]. split; [discriminate|].
    intros [response [p [H _]]]. discriminate.
  - split; [now left|]. split; [|reflexivity].
    intros _. do 2 eexists. repeat split.
  - split; [now right|]. split; [discriminate|].
    intros [response [p [H [Hok _]]]]. injection H as <-. discriminate.
  - split; [now right|]. split; [discriminate|].
    intros [response [p [H [_ [Hj _]]]]]. injection H as <-. discriminate.
Qed.

(** X21. The properties route checks nothing in the body it is given: every
    body that parses is posted unchanged to the backend path of the server,
    in one request.  The answer is 200 with the body of the backend exactly
    when the backend answered ok with a body that parses, and 500 otherwise;
    a refusal of the backend that carries a message is answered 500 with that
    message. *)
Theorem properties_route_forwards (backend : Backend) serverId requestBody :
  let result := propertiesRoute JSON message backend serverId (Some requestBody) in
  let req :=
    mkBackendRequest JSON POST
      ("http://localhost:5033/api/server/" ++ serverId ++ "/properties")%string
      (Some requestBody) in
  snd result = [req]
  /\ (status JSON (fst result) = 200 \/ status JSON (fst result) = 500)
  /\ (status JSON (fst result) = 200 <->
      exists response parsed,
        backend req = Answered JSON response
        /\ ok JSON response = true /\ json JSON response = Some parsed
        /\ body JSON (fst result) = Result JSON parsed)
  /\ (forall response refusal m,
        backend req = Answered JSON response ->
        ok JSON response = false -> json JSON response = Some refusal ->
        message refusal = Some m -> m <> "" ->
        fst result = mkRouteResponse JSON 500 (Error JSON m)).
Proof.
  cbv zeta. unfold propertiesRoute. cbn [fst snd].
  split; [reflexivity|].
  destruct (answer_status "Failed to update server properties"
              (backend (mkBackendRequest JSON POST
                 (PYTHON_BACKEND_URL ++ "/api/server/" ++ serverId
                    ++ "/properties")%string (Some requestBody))))
    as [H1 H2].
  split; [exact H1 | split; [exact H2|]].
  intros response refusal m Hb Hok Hj Hm Hne.
  change ("http://localhost:5033/api/server/" ++ serverId ++ "/properties")%string
    with (PYTHON_BACKEND_URL ++ "/api/server/" ++ serverId ++ "/properties")%string
    in Hb.
  rewrite Hb. unfold Routes.answer. rewrite Hj, Hok. unfold orElse.
  rewrite Hm. apply String.eqb_neq in Hne. now rewrite Hne.
Qed.

(** X22. The control route without a server id answers 400 "Action is
    required" and does not contact the backend when the body has no truthy
    [action]; with one, it posts the body unchanged in one request and does
    not answer 400.  A body that does not parse, or that is [null], is
    answered 500 without a request. *)
Theorem legacy_control_requires_action (backend : Backend) requestBody :
  let result :=
    legacyControlRoute JSON message readAction backend (Some requestBody) in
  (readAction requestBody = Some false ->
   result = (mkRouteResponse JSON 400 (Error JSON "Action is required"), []))
  /\ (readAction requestBody = Some true ->
      snd result
      = [mkBackendRequest JSON POST "http://localhost:5033/api/server/control"
           (Some requestBody)]
      /\ status JSON (fst result) <> 400)
  /\ (readAction requestBody = None ->
      status JSON (fst result) = 500 /\ snd result = [])
  /\ legacyControlRoute JSON message readAction backend None
     = (mkRouteResponse JSON 500 (Error JSON syntaxError), []).
Proof.
  cbv zeta. unfold legacyControlRoute.
  split; [|split; [|split; [|reflexivity]]].
  - now intros ->.
  - intros ->. cbn [fst snd]. split; [reflexivity|].
    destruct (answer_status "Failed to control server"
                (backend (mkBackendRequest JSON POST
                   (PYTHON_BACKEND_URL ++ "/api/server/control")%string
                   (Some requestBody)))) as [[H|H] _];
      rewrite H; discriminate.
  - now intros ->.
Qed.

(** X23. The player profile route answers 400 without any request when the
    user name is missing or empty.  Otherwise it makes one request, to the
    profile address followed by the user name as given, and answers 404 when
    that is answered with a status that is not ok, 500 when the request fails
    or its body does not parse, and 200 with the body otherwise. *)
Theorem profile_route_statuses (backend : Backend) username :
  let result := profileRoute JSON backend username in
  ((username = None \/ username = Some "") ->
   result = (mkRouteResponse JSON 400 (Error JSON "Username is required"), []))
  /\ (forall u, username = Some u -> u <> "" ->
        let req :=
          mkBackendRequest JSON GET
            ("https://api.mojang.com/users/profiles/minecraft/" ++ u)%string
            None in
        snd result = [req]
        /\ (status JSON (fst result) = 404 <->
            exists response, backend req = Answered JSON response
                             /\ ok JSON response = false)
        /\ (status JSON (fst result) = 200 <->
            exists response data,
              backend req = Answered JSON response
              /\ ok JSON response = true /\ json JSON response = Some data
              /\ body JSON (fst result) = Result JSON data)
        /\ (status JSON (fst result) = 200 \/ status JSON (fst result) = 404
            \/ status JSON (fst result) = 500)).
Proof.
  cbv zeta. unfold profileRoute. split.
  - intros [->| ->]; reflexivity.
  - intros u -> Hu. apply String.eqb_neq in Hu. rewrite Hu. cbn [fst snd].
    split; [reflexivity|].
    destruct (backend _) as [m|[[|] [data|]]]; cbn;
      repeat split; auto; try discriminate;
      try (intros [response [H Hok]]; inversion H; subst; discriminate);
      try (intros [response [d [H [Hok [Hj _]]]]]; inversion H; subst;
           discriminate);
      try (intros _; eexists; split; reflexivity).
    intros _. do 2 eexists. repeat split.
Qed.

End WithJSON.

Lemma properties_route_forwards_witness :
  fst (propertiesRoute RoutesFields.Fields RoutesFields.message
         RoutesFields.refusing "y" (Some [("server-port", "80")]))
  = mkRouteResponse RoutesFields.Fields 500
      (Error RoutesFields.Fields "Server is not running").
Proof.
  refine (proj2 (proj2 (proj2
            (properties_route_forwards RoutesFields.Fields RoutesFields.message
               RoutesFields.refusing "y" [("server-port", "80")])))
            _ _ "Server is not running" eq_refl eq_refl eq_refl eq_refl _).
  discriminate.
Defined.

Lemma legacy_control_requires_action_witness :
  legacyControlRoute RoutesFields.Fields RoutesFields.message
    RoutesFields.readAction RoutesFields.refusing
    (Some [("command", "say hi")])
  = (mkRouteResponse RoutesFields.Fields 400
       (Error RoutesFields.Fields "Action is required"), []).
Proof.
  apply (proj1 (legacy_control_requires_action RoutesFields.Fields
                  RoutesFields.message RoutesFields.readAction
                  RoutesFields.refusing [("command", "say hi")])).
  reflexivity.
Defined.

Lemma profile_route_statuses_witness :
  profileRoute RoutesFields.Fields RoutesFields.refusing None
  = (mkRouteResponse RoutesFields.Fields 400
       (Error RoutesFields.Fields "Username is required"), []).
Proof.
  apply (proj1 (profile_route_statuses RoutesFields.Fields
                  RoutesFields.refusing None)).
  now left.
Defined.

End RoutesFacts.

(* ================================================================== *)
(** * Facts about folder names *)
(* ================================================================== *)

Module DownloadFacts.
Import JsText JsTextFacts Download.

Lemma forallb_dropWhile p q t :
  forallb q t = true -> forallb q (dropWhile p t) = true.
Proof.
  induction t as [|c t IH]; cbn; auto.
  destruct (p c); cbn; auto.
  intro H. apply andb_true_iff in H. now apply IH.
Qed.

Lemma forallb_rev (q : N -> bool) t : forallb q (rev t) = forallb q t.
Proof.
  induction t as [|c t IH]; cbn; auto.
  rewrite forallb_app, IH. cbn. rewrite andb_true_r. apply andb_comm.
Qed.

Lemma forallb_stripDashes q t :
  forallb q t = true -> forallb q (stripDashes t) = true.
Proof.
  intro H. unfold stripDashes, dropWhileEnd.
  rewrite forallb_rev. apply forallb_dropWhile.
  rewrite forallb_rev. now apply forallb_dropWhile.
Qed.

Lemma forallb_filter (q : N -> bool) t : forallb q (filter q t) = true.
Proof.
  apply forallb_forall. intros c Hc. now apply filter_In in Hc.
Qed.

(** X24. Whatever the name and whatever lower-casing does, the folder name
    is not empty, is made only of the letters a to z, digits and dashes (so
    it holds no slash, backslash or dot), and has no dash at either end. *)
Theorem folder_name_is_safe (toLowerCase : Text -> Text) name :
  let folder := sanitizeFolderName toLowerCase name in
  folder <> []
  /\ forallb isAllowed folder = true
  /\ firstIsDash folder = false
  /\ lastIsDash folder = false.
Proof.
  cbv zeta. unfold sanitizeFolderName.
  set (kept := filter isAllowed _).
  assert (Hkept : forallb isAllowed kept = true) by apply forallb_filter.
  pose proof (forallb_stripDashes isAllowed kept Hkept) as Hs.
  destruct (stripDashes kept) as [|c t] eqn:Hd.
  - cbn. repeat split. discriminate.
  - cbn [orDefault]. unfold stripDashes in Hd.
    destruct (strip_ends isDash kept c t Hd) as [Hc [front [l [Hl Hw]]]].
    split; [discriminate|]. split; [exact Hs|]. split; [exact Hc|].
    unfold lastIsDash. rewrite Hl, rev_app_distr. exact Hw.
Qed.

Lemma replaceRuns_none p by_ inRun t :
  forallb (fun c => negb (p c)) t = true -> replaceRuns p by_ inRun t = t.
Proof.
  revert inRun. induction t as [|c t IH]; intros inRun H; [reflexivity|].
  cbn in H. apply andb_true_iff in H. destruct H as [Hc Ht].
  apply negb_true_iff in Hc. cbn. rewrite Hc. now rewrite IH.
Qed.

Lemma allowed_is_neither c :
  isAllowed c = true -> isWhiteSpace c = false /\ isInvalid c = false.
Proof.
  unfold isAllowed, isWhiteSpace, isInvalid, dash. intro H.
  rewrite !orb_true_iff, !andb_true_iff, !N.leb_le, N.eqb_eq in H.
  split; apply not_true_iff_false; intro G;
    rewrite !orb_true_iff, ?andb_true_iff, ?N.leb_le, ?N.eqb_eq in G; lia.
Qed.

Lemma forallb_allowed t :
  forallb isAllowed t = true ->
  forallb (fun c => negb (isWhiteSpace c)) t = true
  /\ forallb (fun c => negb (isInvalid c)) t = true.
Proof.
  intro H. rewrite forallb_forall in H.
  split; apply forallb_forall; intros c Hc;
    destruct (allowed_is_neither c (H c Hc)) as [H1 H2];
    now rewrite ?H1, ?H2.
Qed.

Lemma replaceRuns_single_dashes inRun t :
  noDoubleDash t = true ->
  (inRun = true -> firstIsDash t = false) ->
  replaceRuns isDash [dash] inRun t = t.
Proof.
  revert inRun. induction t as [|c t IH]; intros inRun Hn Hf; [reflexivity|].
  cbn in Hn. apply andb_true_iff in Hn. destruct Hn as [Hc Ht].
  cbn [replaceRuns]. destruct (isDash c) eqn:Hd.
  - destruct inRun; [specialize (Hf eq_refl); cbn in Hf; congruence|].
    cbn in Hc. apply negb_true_iff in Hc.
    rewrite (IH true Ht (fun _ => Hc)).
    unfold isDash in Hd. apply N.eqb_eq in Hd. now subst.
  - now rewrite (IH false Ht) by discriminate.
Qed.

Lemma filter_all (q : N -> bool) t : forallb q t = true -> filter q t = t.
Proof.
  induction t as [|c t IH]; cbn; auto.
  intro H. apply andb_true_iff in H. destruct H as [-> Ht]. now rewrite IH.
Qed.

Lemma dropWhile_first t : firstIsDash t = false -> dropWhile isDash t = t.
Proof. destruct t as [|c t]; cbn; [reflexivity | now intros ->]. Qed.

Lemma stripDashes_clean t :
  firstIsDash t = false -> lastIsDash t = false -> stripDashes t = t.
Proof.
  intros Hf Hl. unfold stripDashes, dropWhileEnd.
  rewrite (dropWhile_first t Hf), (dropWhile_first (rev t) Hl).
  apply rev_involutive.
Qed.

(** X25. A name that is a folder name already (not empty, only a to z,
    digits and dashes, no dash at either end, no two dashes in a row) and
    that lower-casing leaves alone is its own folder name. *)
Theorem folder_names_are_kept (toLowerCase : Text -> Text) name :
  toLowerCase name = name ->
  isFolderName name = true ->
  sanitizeFolderName toLowerCase name = name.
Proof.
  intros Hlow H. unfold isFolderName in H.
  rewrite !andb_true_iff, !negb_true_iff in H.
  destruct H as [[[[Hne Hall] Hfirst] Hlast] Hnd].
  destruct (forallb_allowed name Hall) as [Hw Hi].
  unfold sanitizeFolderName. rewrite Hlow.
  rewrite (replaceRuns_none isWhiteSpace) by exact Hw.
  rewrite (replaceRuns_none isInvalid) by exact Hi.
  rewrite replaceRuns_single_dashes by (auto; discriminate).
  rewrite filter_all by exact Hall.
  rewrite stripDashes_clean by assumption.
  destruct name; [discriminate | reflexivity].
Qed.

Lemma folder_names_are_kept_witness :
  sanitizeFolderName asciiLowerCase (ofString "my-server-2")
  = ofString "my-server-2".
Proof.
  apply folder_names_are_kept; reflexivity.
Defined.

(** Names that differ only in what is cleaned away get the same folder. *)
Example folder_name_of_a_title :
  sanitizeFolderName asciiLowerCase (ofString "  My Server: Survival?  ")
  = ofString "my-server-survival".
Proof. reflexivity. Qed.

(** Two dashes can be left next to each other, when what stood between them
    is removed by the fourth replacement. *)
Example folder_name_with_two_dashes :
  sanitizeFolderName asciiLowerCase (ofString "a-!-b") = ofString "a--b".
Proof. reflexivity. Qed.

End DownloadFacts.
